(** * The Bangumi adapter of hiromi (src/bgmal/bgm.py), embedded in Rocq

    The adapter is a chain of blocking HTTP requests whose answers are
    decoded (JSON through [r.json()], HTML through BeautifulSoup) and
    mapped to [AnimeItem] records.  The embedding keeps that shape:

    - [Py]: the fragment of the Python runtime the adapter relies on
      (dynamically typed values, [==], [<], [list.sort], [int(str)],
      subscripting, [in], iteration, [str.split]);
    - [Soup]: the view of a parsed page that the adapter queries
      ([find], [find_all], [.string], [tag['class']], [tag['id']]);
    - [Http]: requests, responses, the provider as a function of the
      traffic so far, and the monad that threads the traffic log and
      propagates exceptions;
    - [Bangumi]: the methods of the class, one definition per method or
      nested helper, under the names of the source. *)

From Stdlib Require Import List ZArith NArith QArith Bool Lia String Ascii.
From Stdlib Require Import Sorting.Sorted Sorting.Permutation.
Import ListNotations.
Set Warnings "-register-all".
Local Close Scope Q_scope.
Local Open Scope Z_scope.

(* ================================================================== *)
(** ** Python runtime fragment *)
(* ================================================================== *)

Module Py.

(** A [str] is a sequence of code points; slicing and comparison work on
    code points, never on bytes. *)
Definition pystr := list N.

(** ASCII literals of the source. *)
Definition u (s : string) : pystr :=
  map N_of_ascii (list_ascii_of_string s).

Fixpoint str_eqb (s t : pystr) : bool :=
  match s, t with
  | [], [] => true
  | a :: s', b :: t' => N.eqb a b && str_eqb s' t'
  | _, _ => false
  end.

(** [s < t] on strings: lexicographic on code points. *)
Fixpoint str_ltb (s t : pystr) : bool :=
  match s, t with
  | _, [] => false
  | [], _ :: _ => true
  | a :: s', b :: t' =>
      if N.ltb a b then true
      else if N.eqb a b then str_ltb s' t' else false
  end.

Fixpoint is_prefix (p s : pystr) : bool :=
  match p, s with
  | [], _ => true
  | a :: p', b :: s' => N.eqb a b && is_prefix p' s'
  | _ :: _, [] => false
  end.

(** [p in s] for two strings: substring test. *)
Fixpoint is_infix (p s : pystr) : bool :=
  is_prefix p s ||
  match s with
  | [] => false
  | _ :: s' => is_infix p s'
  end.

(** The exceptions that can leave the adapter.  [ConnectionError] and
    [HTTPError] are the transport's ([requests]), [JSONDecodeError] is
    the decoder's, [LoginFailedException] is the one api.py declares
    for a failed login; the others are Python's own. *)
Inductive exn :=
| ConnectionError | HTTPError | JSONDecodeError
| KeyError | TypeError | IndexError | AttributeError | ValueError
| LoginFailedException.

Inductive result (A : Type) :=
| Ok (a : A)
| Raise (e : exn).
Arguments Ok {A} a.
Arguments Raise {A} e.

Definition rbind {A B} (r : result A) (k : A -> result B) : result B :=
  match r with
  | Ok a => k a
  | Raise e => Raise e
  end.

(** What [r.json()] hands to the adapter, and what the adapter stores in
    the fields of an [AnimeItem].  A float is carried by its exact
    value: Python compares ints and finite floats exactly.  The floats
    inf and nan are left out: the decoder produces them for the
    literals Infinity and NaN, and inf also for a number beyond the
    float range, such as 1e999.  A dict is the list of its items, in
    order; its keys are distinct. *)
Inductive value :=
| VNone
| VBool (b : bool)
| VInt (z : Z)
| VFloat (q : Q)
| VStr (s : pystr)
| VList (l : list value)
| VDict (d : list (pystr * value)).

Fixpoint lookup {A} (k : pystr) (d : list (pystr * A)) : option A :=
  match d with
  | [] => None
  | (k', v) :: d' => if str_eqb k k' then Some v else lookup k d'
  end.

(** bool, int and float compare as numbers ([True == 1], [2.0 == 2]). *)
Definition num_of (v : value) : option Q :=
  match v with
  | VBool b => Some (inject_Z (if b then 1 else 0))
  | VInt z => Some (inject_Z z)
  | VFloat q => Some q
  | _ => None
  end.

(** [a == b]. *)
Fixpoint py_eq (a b : value) {struct a} : bool :=
  match a, b with
  | VNone, VNone => true
  | VStr s, VStr t => str_eqb s t
  | VList xs, VList ys =>
      (fix all2 (xs ys : list value) {struct xs} : bool :=
         match xs, ys with
         | [], [] => true
         | x :: xs', y :: ys' => py_eq x y && all2 xs' ys'
         | _, _ => false
         end) xs ys
  | VDict d, VDict e =>
      Nat.eqb (List.length d) (List.length e) &&
      (fix sub (d : list (pystr * value)) : bool :=
         match d with
         | [] => true
         | (k, v) :: d' =>
             match lookup k e with
             | Some w => py_eq v w
             | None => false
             end && sub d'
         end) d
  | _, _ =>
      match num_of a, num_of b with
      | Some p, Some q => Qeq_bool p q
      | _, _ => false
      end
  end.

(** [a < b]; [TypeError] where Python has no ordering. *)
Fixpoint py_lt (a b : value) {struct a} : result bool :=
  match a, b with
  | VStr s, VStr t => Ok (str_ltb s t)
  | VList xs, VList ys =>
      (fix lex (xs ys : list value) {struct xs} : result bool :=
         match xs, ys with
         | [], [] => Ok false
         | [], _ :: _ => Ok true
         | _ :: _, [] => Ok false
         | x :: xs', y :: ys' =>
             if py_eq x y then lex xs' ys' else py_lt x y
         end) xs ys
  | _, _ =>
      match num_of a, num_of b with
      | Some p, Some q => Ok (negb (Qle_bool q p))
      | _, _ => Raise TypeError
      end
  end.

(** [x in l] for a list [l]. *)
Definition py_mem (x : value) (l : list value) : bool :=
  existsb (py_eq x) l.

(** [list.sort()]: a stable sort by [<].  CPython inserts an element
    after the elements it is not smaller than, as [insert] does; on
    numbers and on strings, where [<] is a strict weak order, every
    stable sort gives this result, and one comparison between values
    that have no ordering raises [TypeError]. *)
Fixpoint insert (x : value) (l : list value) : result (list value) :=
  match l with
  | [] => Ok [x]
  | y :: l' =>
      rbind (py_lt x y) (fun b =>
        if b then Ok (x :: y :: l')
        else rbind (insert x l') (fun r => Ok (y :: r)))
  end.

Definition py_sort (l : list value) : result (list value) :=
  fold_left (fun acc x => rbind acc (insert x)) l (Ok []).

(** [v[k]] for a string key [k]. *)
Definition get_item (v : value) (k : pystr) : result value :=
  match v with
  | VDict d =>
      match lookup k d with
      | Some x => Ok x
      | None => Raise KeyError
      end
  | _ => Raise TypeError
  end.

(** [k in v] for a string [k]. *)
Definition contains (k : pystr) (v : value) : result bool :=
  match v with
  | VDict d =>
      Ok (match lookup k d with Some _ => true | None => false end)
  | VList l => Ok (py_mem (VStr k) l)
  | VStr s => Ok (is_infix k s)
  | _ => Raise TypeError
  end.

(** [for x in v]: the elements of a list, the keys of a dict, the
    characters of a string. *)
Definition py_iter (v : value) : result (list value) :=
  match v with
  | VList l => Ok l
  | VDict d => Ok (map (fun kv => VStr (fst kv)) d)
  | VStr s => Ok (map (fun c => VStr [c]) s)
  | _ => Raise TypeError
  end.

(** [[f(x) for x in l]]: the first exception ends the comprehension. *)
Fixpoint mapM {A B} (f : A -> result B) (l : list A) : result (list B) :=
  match l with
  | [] => Ok []
  | x :: l' =>
      rbind (f x) (fun y => rbind (mapM f l') (fun ys => Ok (y :: ys)))
  end.

(** [l[0]] and [l[-1]]. *)
Definition first {A} (l : list A) : result A :=
  match l with
  | [] => Raise IndexError
  | x :: _ => Ok x
  end.

Fixpoint last {A} (l : list A) : result A :=
  match l with
  | [] => Raise IndexError
  | [x] => Ok x
  | _ :: l' => last l'
  end.

(** [s.split(sep)] for a separator of one character. *)
Fixpoint split_on (sep : N) (s : pystr) : list pystr :=
  match s with
  | [] => [[]]
  | c :: s' =>
      if N.eqb c sep then [] :: split_on sep s'
      else match split_on sep s' with
           | w :: ws => (c :: w) :: ws
           | [] => [[c]]
           end
  end.

(** [int(s)] in base 10, for a string of ASCII characters: surrounding
    whitespace is dropped (tab, line feed, vertical tab, form feed,
    carriage return and space: U+001C to U+001F are not whitespace
    here), one sign is allowed, then digits, with single underscores
    between digits.  The interpreter refuses numerals of more than
    [int_max_str_digits] digits (its default limit).  A string with
    other characters is outside this model: Python also accepts the
    decimal digits and the whitespace of other scripts, which would
    need the Unicode database; here such a character is no digit. *)
Definition is_space (c : N) : bool :=
  ((9 <=? c) && (c <=? 13) || (c =? 32))%N.

Definition digit (c : N) : option Z :=
  if ((48 <=? c) && (c <=? 57))%N then Some (Z.of_N c - 48) else None.

Fixpoint lstrip (s : pystr) : pystr :=
  match s with
  | c :: s' => if is_space c then lstrip s' else s
  | [] => []
  end.

Definition strip (s : pystr) : pystr := rev (lstrip (rev (lstrip s))).

Fixpoint digits_acc (acc : Z) (n : nat) (after_digit : bool) (s : pystr)
  : option (Z * nat) :=
  match s with
  | [] => if after_digit then Some (acc, n) else None
  | c :: s' =>
      match digit c with
      | Some d => digits_acc (10 * acc + d) (S n) true s'
      | None =>
          if N.eqb c 95 && after_digit
          then digits_acc acc n false s'
          else None
      end
  end.

Definition int_max_str_digits : nat := 4300.

Definition py_int (s : pystr) : result Z :=
  let t := strip s in
  let '(neg, body) :=
    match t with
    | c :: b =>
        if N.eqb c 45 then (true, b)          (* - *)
        else if N.eqb c 43 then (false, b)    (* + *)
        else (false, t)
    | [] => (false, t)
    end in
  match digits_acc 0 0 false body with
  | Some (v, n) =>
      if Nat.leb n int_max_str_digits
      then Ok (if neg then - v else v)
      else Raise ValueError
  | None => Raise ValueError
  end.

End Py.

(* ================================================================== *)
(** ** The parsed page, as BeautifulSoup shows it *)
(* ================================================================== *)

Module Soup.
Import Py.

(** A node of the tree that [BeautifulSoup(r.content, 'lxml')] builds: a
    string, or a tag with its name, its [class] attribute (a list of
    tokens, [None] without the attribute), its [id] attribute and its
    contents.  The adapter reads no other attribute. *)
Inductive Node :=
| Text (s : pystr)
| Tag (name : pystr) (class : option (list pystr)) (id : option pystr)
      (contents : list Node).

(** [tag.descendants]: document order, the tag itself left out. *)
Fixpoint descendants (n : Node) : list Node :=
  match n with
  | Text _ => []
  | Tag _ _ _ cs =>
      (fix go (cs : list Node) : list Node :=
         match cs with
         | [] => []
         | c :: cs' => (c :: descendants c) ++ go cs'
         end) cs
  end.

(** [class_=c] selects the tags that carry the token [c]. *)
Definition has_class (c : pystr) (n : Node) : bool :=
  match n with
  | Tag _ (Some cl) _ _ => existsb (str_eqb c) cl
  | _ => false
  end.

Definition has_name (name : option pystr) (n : Node) : bool :=
  match n, name with
  | Tag _ _ _ _, None => true
  | Tag nm _ _ _, Some x => str_eqb x nm
  | Text _, _ => false
  end.

(** [tag.find_all(name, class_=c)] and [tag.find(class_=c)]. *)
Definition find_all (name : option pystr) (c : pystr) (n : Node)
  : list Node :=
  filter (fun d => has_name name d && has_class c d) (descendants n).

Definition find (c : pystr) (n : Node) : option Node :=
  hd_error (find_all None c n).

(** [tag.string]: the only child when it is a string, the [.string] of
    the only child when it is a tag, [None] otherwise. *)
Fixpoint string_of (n : Node) : option pystr :=
  match n with
  | Text s => Some s
  | Tag _ _ _ [c] => string_of c
  | Tag _ _ _ _ => None
  end.

(** [tag['class']] and [tag['id']]. *)
Definition attr_class (n : Node) : result (list pystr) :=
  match n with
  | Tag _ (Some cl) _ _ => Ok cl
  | _ => Raise KeyError
  end.

Definition attr_id (n : Node) : result pystr :=
  match n with
  | Tag _ _ (Some i) _ => Ok i
  | _ => Raise KeyError
  end.

End Soup.

(* ================================================================== *)
(** ** Requests, responses and the provider *)
(* ================================================================== *)

Module Http.
Import Py Soup.

(** The eight requests of the adapter, by endpoint, with the values the
    source formats into the URL, the query or the form. *)
Inductive Request :=
| PostAuth (username password : value)
    (* POST api.bgm.tv/auth?source=onAir, form password, username,
       auth=0, sysuid=0, sysusername=0 *)
| GetWatching (uid : value)
    (* GET api.bgm.tv/user/{uid}/collection?cat=watching *)
| GetCollect (uid : value) (page : Z)
    (* GET bgm.tv/anime/list/{uid}/collect, params page *)
| GetSubjectSimple (id : pystr) (auth : value)
    (* GET api.bgm.tv/subject/{id}, params responseGroup=simple,
       source=onAir, auth *)
| GetSearch (title : value) (params : list (pystr * pystr))
    (* GET api.bgm.tv/search/subject/{title}, params *)
| GetSubjectLarge (id : value)
    (* GET api.bgm.tv/subject/{id}?responseGroup=large *)
| GetProgress (uid auth subject_id : value)
    (* GET api.bgm.tv/user/{uid}/progress, params source=onAir, auth,
       subject_id *)
| PostWatched (ep auth : value).
    (* POST api.bgm.tv/ep/{ep}/status/watched?source=onAir, form auth *)

(** A response: its status code and its content under the two decoders
    the adapter applies, [r.json()] ([None]: the decoder raises)
    and BeautifulSoup. *)
Record Resp := mkResp {
  status_code : Z;
  json_body : option value;
  soup : Node
}.

Inductive Response :=
| NoResponse                (* the request itself fails *)
| Got (r : Resp).

(** What the adapter does to the outside, in order. *)
Inductive Event :=
| Sent (req : Request)
| Slept (seconds : Z).

(** The provider answers a request in view of everything that happened
    before it; a fixed remote state is a provider that ignores the
    history. *)
Definition World := list Event -> Request -> Response.

(** Computations of the adapter: they extend the log and return a value
    or raise. *)
Definition M (A : Type) := list Event -> result A * list Event.

Definition ret {A} (a : A) : M A := fun h => (Ok a, h).

Definition raise {A} (e : exn) : M A := fun h => (Raise e, h).

Definition bind {A B} (m : M A) (k : A -> M B) : M B :=
  fun h =>
    match m h with
    | (Ok a, h') => k a h'
    | (Raise e, h') => (Raise e, h')
    end.

Definition lift {A} (r : result A) : M A := fun h => (r, h).

(** [requests.get] and [requests.post]. *)
Definition request (w : World) (req : Request) : M Resp :=
  fun h =>
    match w h req with
    | NoResponse => (Raise ConnectionError, h ++ [Sent req])
    | Got r => (Ok r, h ++ [Sent req])
    end.

(** [time.sleep]. *)
Definition sleep (seconds : Z) : M unit :=
  fun h => (Ok tt, h ++ [Slept seconds]).

(** [r.raise_for_status()]: statuses 400 to 599 raise. *)
Definition is_error (status : Z) : bool :=
  (400 <=? status) && (status <? 600).

Definition raise_for_status (r : Resp) : M unit :=
  if is_error (status_code r) then raise HTTPError else ret tt.

(** [r.json()]: the document, or the exception of the decoder.  The
    model has one name for that exception, [JSONDecodeError]; the
    decoder can also raise [ValueError] (an integer of more digits than
    the interpreter converts) and [RecursionError] (deep nesting).  The
    adapter catches none of them. *)
Definition json (r : Resp) : M value :=
  match json_body r with
  | Some v => ret v
  | None => raise JSONDecodeError
  end.

End Http.

Declare Scope adapter_scope.
Delimit Scope adapter_scope with adapter.
Notation "x <- m ;; k" := (Http.bind m (fun x => k))
  (at level 61, m at next level, right associativity) : adapter_scope.
Notation "m ;;; k" := (Http.bind m (fun _ => k))
  (at level 61, right associativity) : adapter_scope.
Notation "x <~ r ;; k" := (Py.rbind r (fun x => k))
  (at level 61, r at next level, right associativity) : adapter_scope.

(* ================================================================== *)
(** ** api.py: the record the adapter returns *)
(* ================================================================== *)

Module Api.
Import Py.

(** Modelled from the spec: [AnimeItem] is declared in api.py, which is
    not among the sources.  Its six fields are those of the spec's data
    model; a field holds whatever value the adapter stores in it. *)
Record AnimeItem := mkAnimeItem {
  title : value;
  score : value;
  userscore : value;
  episode : value;
  status : value;
  id : value
}.

(** Modelled from the spec: the positional constructor.  [search] passes
    name, rating score, None, episode count, None, id.  By the meaning
    the spec gives to the fields, the name is the title, the rating
    score the score, the count the episode and the id the id; the two
    [None] are left for userscore and status. *)
Definition positional (a b c d e f : value) : AnimeItem :=
  mkAnimeItem a b c d e f.

End Api.

(* ================================================================== *)
(** ** class Bangumi *)
(* ================================================================== *)

Module Bangumi.
Import Py Soup Http.
Local Open Scope string_scope.
Local Open Scope adapter_scope.

(** The session state of an adapter object. *)
Record Self := mkSelf {
  _uid : value;
  _auth : value
}.

(** [Bangumi(account, password)]. *)
Definition __init__ (w : World) (account password : value) : M Self :=
  r <- request w (PostAuth account password) ;;
  raise_for_status r ;;;
  output <- json r ;;
  (* try: ... except Exception: raise LoginFailedException() *)
  match (uid <~ get_item output (u "username") ;;
         auth <~ get_item output (u "auth") ;;
         Ok (mkSelf uid auth)) with
  | Ok self => ret self
  | Raise _ => raise LoginFailedException
  end.

Definition watching_item (item : value) : result Api.AnimeItem :=
  st <~ get_item item (u "ep_status") ;;
  subject <~ get_item item (u "subject") ;;
  has_eps <~ contains (u "eps") subject ;;
  ep <~ (if has_eps then get_item subject (u "eps") else Ok (VInt 13)) ;;
  i <~ get_item subject (u "id") ;;
  name <~ get_item subject (u "name") ;;
  Ok {| Api.status := st; Api.episode := ep; Api.userscore := VNone;
        Api.score := VNone; Api.id := i; Api.title := name |}.

Definition watching_list (w : World) (self : Self)
  : M (list Api.AnimeItem) :=
  r <- request w (GetWatching (_uid self)) ;;
  raise_for_status r ;;;
  data <- json r ;;
  lift (items <~ py_iter data ;; mapM watching_item items).

(** The label of the control that leads to the next page: two
    U+203A. *)
Definition next_marker : pystr := [8250; 8250]%N.

Definition has_next_page (soup : Node) : result bool :=
  match find (u "page_inner") soup with
  | None => Raise AttributeError
  | Some pages =>
      p <~ last (find_all None (u "p") pages) ;;
      Ok (match string_of p with
          | Some s => str_eqb s next_marker
          | None => false
          end)
  end.

(** The nested helpers of [_bgmanime]. *)
Definition score (item : Node) : result value :=
  match find (u "starsinfo") item with
  | None => Raise TypeError
  | Some tag =>
      starsinfo <~ attr_class tag ;;
      s0 <~ first starsinfo ;;
      stars <~ (if negb (str_eqb s0 (u "starsinfo"))
                then first starsinfo else last starsinfo) ;;
      n <~ py_int (skipn 6 stars) ;;
      Ok (VInt n)
  end.

Definition opt_str (o : option pystr) : value :=
  match o with
  | Some s => VStr s
  | None => VNone
  end.

Definition title (item : Node) : result value :=
  match find (u "grey") item with
  | Some g => Ok (opt_str (string_of g))
  | None =>
      match find (u "l") item with
      | Some l => Ok (opt_str (string_of l))
      | None => Raise AttributeError
      end
  end.

(** The dict [episodes()] returns. *)
Record Detail := mkDetail {
  d_episode : value;
  d_status : value;
  d_score : value;
  d_id : value
}.

Definition episodes (w : World) (self : Self) (item : Node) : M Detail :=
  iid <- lift (attr_id item) ;;
  sid <- lift (last (split_on 95 iid)) ;;
  r <- request w (GetSubjectSimple sid (_auth self)) ;;
  raise_for_status r ;;;
  data <- json r ;;
  lift (eps <~ get_item data (u "eps") ;;
        ep <~ (if negb (py_eq eps (VInt 0))
               then get_item data (u "eps") else Ok (VInt 1)) ;;
        rating <~ get_item data (u "rating") ;;
        sc <~ get_item rating (u "score") ;;
        i <~ get_item data (u "id") ;;
        Ok (mkDetail ep ep sc i)).

Definition _bgmanime (w : World) (self : Self) (item : Node)
  : M Api.AnimeItem :=
  t <- lift (title item) ;;
  us <- lift (score item) ;;
  d <- episodes w self item ;;
  ret {| Api.title := t; Api.userscore := us;
         Api.episode := d_episode d; Api.status := d_status d;
         Api.score := d_score d; Api.id := d_id d |}.

(** [for item in items: watched.append(self._bgmanime(item))]. *)
Fixpoint append_items (w : World) (self : Self) (items : list Node)
    (watched : list Api.AnimeItem) : M (list Api.AnimeItem) :=
  match items with
  | [] => ret watched
  | item :: rest =>
      a <- _bgmanime w self item ;;
      append_items w self rest (watched ++ [a])
  end.

(** The [while True] loop of [watched_list], entered with [page] and
    [watched]; [None] when [fuel] iterations did not reach the
    [break]. *)
Fixpoint watched_loop (fuel : nat) (w : World) (self : Self) (page : Z)
    (watched : list Api.AnimeItem) : M (option (list Api.AnimeItem)) :=
  match fuel with
  | O => ret None
  | S fuel' =>
      r <- request w (GetCollect (_uid self) page) ;;
      raise_for_status r ;;;
      let soup := Http.soup r in
      let items := find_all (Some (u "li")) (u "item") soup in
      watched' <- append_items w self items watched ;;
      more <- lift (has_next_page soup) ;;
      if negb more then ret (Some watched')
      else sleep 1 ;;; watched_loop fuel' w self (page + 1) watched'
  end.

(** The body of [watched_list]; the [period_cache] decorator around it
    belongs to hiromi.cache. *)
Definition watched_list (fuel : nat) (w : World) (self : Self)
  : M (option (list Api.AnimeItem)) :=
  watched_loop fuel w self 1 [].

Definition search_params : list (pystr * pystr) :=
  [(u "responseGroup", u "large"); (u "max_results", u "11");
   (u "start", u "0")].

Definition get_raw_result (w : World) (title : value) : M value :=
  r <- request w (GetSearch title search_params) ;;
  raise_for_status r ;;;
  result <- json r ;;
  lift (get_item result (u "list")).

Definition raw_to_AnimeItem (raw : value) : result Api.AnimeItem :=
  name <~ get_item raw (u "name") ;;
  rating <~ get_item raw (u "rating") ;;
  sc <~ get_item rating (u "score") ;;
  has_eps <~ contains (u "eps") raw ;;
  ep <~ (if has_eps then get_item raw (u "eps") else Ok (VInt 1)) ;;
  i <~ get_item raw (u "id") ;;
  Ok (Api.positional name sc VNone ep VNone i).

(** [next((raw for raw in l if raw['type'] == 2), None)]. *)
Fixpoint next_anime (l : list value) : result value :=
  match l with
  | [] => Ok VNone
  | raw :: l' =>
      ty <~ get_item raw (u "type") ;;
      if py_eq ty (VInt 2) then Ok raw else next_anime l'
  end.

Definition search (w : World) (self : Self) (title : value)
  : M Api.AnimeItem :=
  raws <- get_raw_result w title ;;
  l <- lift (py_iter raws) ;;
  raw <- lift (next_anime l) ;;
  lift (raw_to_AnimeItem raw).

(** The body is [pass]: the call returns [None]. *)
Definition mark_as_watched (w : World) (self : Self)
    (anime_item : Api.AnimeItem) : M value :=
  ret VNone.

(** [[ep['id'] for ep in r.json()['eps']]]. *)
Definition episode_ids (body : value) : result (list value) :=
  eps <~ get_item body (u "eps") ;;
  l <~ py_iter eps ;;
  mapM (fun ep => get_item ep (u "id")) l.

Definition get_all_episodes (w : World) (anime_id : value)
  : M (list value) :=
  r <- request w (GetSubjectLarge anime_id) ;;
  raise_for_status r ;;;
  body <- json r ;;
  lift (episode_ids body).

Definition get_watched_episodes (w : World) (self : Self)
    (anime_id : value) : M (list value) :=
  r <- request w (GetProgress (_uid self) (_auth self) anime_id) ;;
  raise_for_status r ;;;
  body <- json r ;;
  lift (episode_ids body).

(** [next(filter(lambda x: x not in watched, all_episodes), None)]. *)
Definition next_unwatched (watched all_episodes : list value) : value :=
  match List.find (fun x => negb (py_mem x watched)) all_episodes with
  | Some x => x
  | None => VNone
  end.

Definition increment_status (w : World) (self : Self)
    (anime_item : Api.AnimeItem) : M bool :=
  watched <- get_watched_episodes w self (Api.id anime_item) ;;
  all_episodes <- get_all_episodes w (Api.id anime_item) ;;
  all_episodes <- lift (py_sort all_episodes) ;;
  match next_unwatched watched all_episodes with
  | VNone => ret false
  | next_episode =>
      r <- request w (PostWatched next_episode (_auth self)) ;;
      raise_for_status r ;;;
      result <- json r ;;
      code <- lift (get_item result (u "code")) ;;
      ret (py_eq code (VInt 200))
  end.

End Bangumi.

(* ================================================================== *)
(** ** The vocabulary of the properties *)
(* ================================================================== *)

Module Spec.
Import Py Soup Http.

(** After the traffic [h], the provider answers [req] with a status
    that is no error and with the JSON document [body]. *)
Definition answers (w : World) (h : list Event) (req : Request)
    (body : value) : Prop :=
  exists r, w h req = Got r /\ is_error (status_code r) = false /\
            json_body r = Some body.

(** After the traffic [h], the provider answers [req] with a status
    that is no error and with the page [doc]. *)
Definition serves (w : World) (h : list Event) (req : Request)
    (doc : Node) : Prop :=
  exists r, w h req = Got r /\ is_error (status_code r) = false /\
            soup r = doc.



(** The entries of a collection page: its [li] tags of class [item]. *)
Definition entries (doc : Node) : list Node :=
  find_all (Some (u "li")) (u "item") doc.

(** [c] is the last pagination control of the page [doc]. *)
Definition last_control (doc c : Node) : Prop :=
  exists pages, find (u "page_inner") doc = Some pages /\
                last (find_all None (u "p") pages) = Ok c.

Definition next_marker_present (doc : Node) : Prop :=
  exists c, last_control doc c /\
            string_of c = Some Bangumi.next_marker.

Definition next_marker_absent (doc : Node) : Prop :=
  exists c, last_control doc c /\
            string_of c <> Some Bangumi.next_marker.

(** A search candidate that the filter of [search] examines and skips:
    it has a type, and the type is not the anime type. *)
Definition not_anime (raw : value) : Prop :=
  exists ty, get_item raw (u "type") = Ok ty /\ py_eq ty (VInt 2) = false.

(** The pages of the collection listing that a log asks for, in
    order. *)
Fixpoint collect_pages (evs : list Event) : list Z :=
  match evs with
  | [] => []
  | Sent (GetCollect _ p) :: evs' => p :: collect_pages evs'
  | _ :: evs' => collect_pages evs'
  end.

(** The mutation requests of a log. *)
Fixpoint mutations (evs : list Event) : list Request :=
  match evs with
  | [] => []
  | Sent (PostWatched e a) :: evs' => PostWatched e a :: mutations evs'
  | _ :: evs' => mutations evs'
  end.


(** The three requests of [increment_status]. *)
Definition progress_request (self : Bangumi.Self)
    (anime_item : Api.AnimeItem) : Request :=
  GetProgress (Bangumi._uid self) (Bangumi._auth self) (Api.id anime_item).

Definition subject_request (anime_item : Api.AnimeItem) : Request :=
  GetSubjectLarge (Api.id anime_item).

Definition mark_request (self : Bangumi.Self) (ep : Z) : Request :=
  PostWatched (VInt ep) (Bangumi._auth self).

(** The number a string of ASCII digits denotes. *)
Definition is_digit (c : N) : Prop := (48 <= c <= 57)%N.

Definition decimal (ds : pystr) : Z :=
  fold_left (fun acc c => 10 * acc + (Z.of_N c - 48)) ds 0.

(** The subjects a log asks the detail endpoint for, in order. *)
Fixpoint detail_requests (evs : list Event) : list pystr :=
  match evs with
  | [] => []
  | Sent (GetSubjectSimple sid _) :: evs' => sid :: detail_requests evs'
  | _ :: evs' => detail_requests evs'
  end.

(** The pauses of a log, in seconds. *)
Fixpoint sleeps (evs : list Event) : list Z :=
  match evs with
  | [] => []
  | Slept n :: evs' => n :: sleeps evs'
  | _ :: evs' => sleeps evs'
  end.

(** The pages below [J] are served, end with the next-page marker, and
    their entries parse. *)
Definition pages_before (w : World) (self : Bangumi.Self)
    (parsed : Node -> Api.AnimeItem) (page : nat -> Node) (J : nat)
  : Prop :=
  forall p, (1 <= p < J)%nat ->
    (forall h,
        serves w h (GetCollect (Bangumi._uid self) (Z.of_nat p)) (page p))
    /\ next_marker_present (page p)
    /\ (forall h item,
           In item (entries (page p)) ->
           fst (Bangumi._bgmanime w self item h) = Ok (parsed item)).

(** The items of the pages [p], [p + 1], ..., [p + n - 1]. *)
Definition items_of (parsed : Node -> Api.AnimeItem) (page : nat -> Node)
    (p n : nat) : list Api.AnimeItem :=
  flat_map (fun q => map parsed (entries (page q))) (seq p n).

(** A record of the watching collection with all the fields
    [watching_list] reads, and the item it stands for. *)
Definition watching_record (record : value) (a : Api.AnimeItem) : Prop :=
  exists st d i name,
    get_item record (u "ep_status") = Ok st /\
    get_item record (u "subject") = Ok (VDict d) /\
    lookup (u "id") d = Some i /\
    lookup (u "name") d = Some name /\
    a = Api.mkAnimeItem name VNone VNone
          (match lookup (u "eps") d with
           | Some e => e
           | None => VInt 13
           end) st i.

(** The exceptions the model has for a request that brings no JSON
    document. *)
Definition transport_failure (e : exn) : Prop :=
  e = ConnectionError \/ e = HTTPError \/ e = JSONDecodeError.

(** [a] is what some run of [_bgmanime] made of the entry. *)
Definition parse_of (w : World) (self : Bangumi.Self) (entry : Node)
    (a : Api.AnimeItem) : Prop :=
  exists h1 h2, Bangumi._bgmanime w self entry h1 = (Ok a, h2).

(** [doc] is a page the provider served for the listing. *)
Definition served_page (w : World) (self : Bangumi.Self) (doc : Node)
  : Prop :=
  exists h p, serves w h (GetCollect (Bangumi._uid self) p) doc.

End Spec.

(* ================================================================== *)
(** ** Concrete providers *)
(* ================================================================== *)

Module Scenario.
Import Py Soup Http.
Local Open Scope string_scope.

Definition json_resp (body : value) : Resp :=
  mkResp 200 (Some body) (Text []).

Definition html_resp (doc : Node) : Resp :=
  mkResp 200 None doc.

Definition self : Bangumi.Self :=
  Bangumi.mkSelf (VStr (u "quinoa")) (VStr (u "token")).

Definition anime : Api.AnimeItem :=
  Api.mkAnimeItem (VStr (u "X")) VNone VNone (VInt 3) (VInt 2) (VInt 42).

Definition eps (ids : list Z) : value :=
  VDict [(u "eps", VList (map (fun i => VDict [(u "id", VInt i)]) ids))].

(** Episodes 5, 1, 3, of which [seen] are watched; marking answers with
    [code]. *)
Definition episodes_5_1_3 (seen : list Z) (code : Z) : World :=
  fun _ req =>
    match req with
    | GetProgress _ _ _ => Got (json_resp (eps seen))
    | GetSubjectLarge _ => Got (json_resp (eps [5; 1; 3]))
    | PostWatched _ _ => Got (json_resp (VDict [(u "code", VInt code)]))
    | _ => NoResponse
    end.

Definition book : value :=
  VDict [(u "id", VInt 6); (u "name", VStr (u "X, the novel"));
         (u "rating", VDict [(u "score", VFloat (81 # 10))]);
         (u "type", VInt 1)].

Definition series : value :=
  VDict [(u "id", VInt 7); (u "name", VStr (u "X"));
         (u "rating", VDict [(u "score", VFloat (75 # 10))]);
         (u "type", VInt 2)].

(** The search endpoint answers with the candidates [l]. *)
Definition found (l : list value) : World :=
  fun _ req =>
    match req with
    | GetSearch _ _ => Got (json_resp (VDict [(u "list", VList l)]))
    | _ => NoResponse
    end.

(** The authentication endpoint answers with [r]. *)
Definition auth_answer (r : Resp) : World :=
  fun _ req =>
    match req with
    | PostAuth _ _ => Got r
    | _ => NoResponse
    end.

Definition unauthorized : value :=
  VDict [(u "code", VInt 401); (u "error", VStr (u "Unauthorized"))].

(** One anime in progress whose subject record has no [eps]. *)
Definition in_progress : value :=
  VList [VDict [(u "ep_status", VInt 3);
                (u "subject", VDict [(u "id", VInt 9);
                                     (u "name", VStr (u "Y"))])]].

Definition watching : World :=
  fun _ req =>
    match req with
    | GetWatching _ => Got (json_resp in_progress)
    | _ => NoResponse
    end.

(** A listing entry: its title link and its score marker. *)
Definition entry (sid : string) (name : string) (cls : list pystr)
  : Node :=
  Tag (u "li") (Some [u "item"; u "odd"]) (Some (u ("item_" ++ sid)))
    [Tag (u "a") (Some [u "l"]) None [Text (u name)];
     Tag (u "span") (Some cls) None []].

Definition control (label : pystr) : Node :=
  Tag (u "a") (Some [u "p"]) None [Text label].

Definition listing (items controls : list Node) : Node :=
  Tag (u "[document]") None None
    [Tag (u "ul") (Some [u "browserFull"]) None items;
     Tag (u "div") (Some [u "page_inner"]) None controls].

Definition page_1 : Node :=
  listing [entry "12" "Y" [u "sstars9"; u "starsinfo"]]
          [control (u "1"); control (u "2"); control Bangumi.next_marker].

Definition page_2 : Node :=
  listing [entry "34" "Z" [u "starsinfo"; u "sstars7"]]
          [control (u "1"); control (u "2")].

Definition detail (i eps : Z) : value :=
  VDict [(u "id", VInt i); (u "eps", VInt eps);
         (u "rating", VDict [(u "score", VFloat (8 # 1))])].

(** A collection of two pages; the first anime reports 0 episodes. *)
Definition two_pages : World :=
  fun _ req =>
    match req with
    | GetCollect _ p =>
        if Z.eqb p 1 then Got (html_resp page_1)
        else if Z.eqb p 2 then Got (html_resp page_2)
        else Got (mkResp 404 None (Text []))
    | GetSubjectSimple sid _ =>
        if str_eqb sid (u "12") then Got (json_resp (detail 12 0))
        else Got (json_resp (detail 34 24))
    | _ => NoResponse
    end.

Definition page (p : nat) : Node :=
  if Nat.eqb p 1 then page_1 else page_2.



Definition parsed (item : Node) : Api.AnimeItem :=
  match Bangumi._bgmanime two_pages self item [] with
  | (Ok a, _) => a
  | _ => anime
  end.

(** The item that stands for [series]. *)
Definition series_item : Api.AnimeItem :=
  Api.mkAnimeItem (VStr (u "X")) (VFloat (75 # 10)) VNone (VInt 1) VNone
                  (VInt 7).

Definition credentials : value :=
  VDict [(u "username", VStr (u "quinoa")); (u "auth", VStr (u "token"))].

(** A collection whose page [p] is answered by [page_of p]; the detail
    endpoint answers as in [two_pages]. *)
Definition collection (page_of : Z -> Response) : World :=
  fun _ req =>
    match req with
    | GetCollect _ p => page_of p
    | GetSubjectSimple sid _ =>
        if str_eqb sid (u "12") then Got (json_resp (detail 12 0))
        else Got (json_resp (detail 34 24))
    | _ => NoResponse
    end.

(** Every page is [page_1], which ends with the marker. *)
Definition endless : World :=
  collection (fun _ => Got (html_resp page_1)).

(** The second page is answered with status 503. *)
Definition broken_second : World :=
  collection (fun p => if Z.eqb p 1 then Got (html_resp page_1)
                       else Got (mkResp 503 None (Text []))).

(** An entry without a score marker. *)
Definition unrated : Node :=
  Tag (u "li") (Some [u "item"]) (Some (u "item_56"))
    [Tag (u "a") (Some [u "l"]) None [Text (u "W")]].

Definition page_unrated : Node :=
  listing [entry "34" "Z" [u "starsinfo"; u "sstars7"]; unrated;
           entry "12" "Y" [u "sstars9"; u "starsinfo"]]
          [control (u "1"); control (u "2")].

Definition unrated_second : World :=
  collection (fun p => if Z.eqb p 1 then Got (html_resp page_1)
                       else Got (html_resp page_unrated)).

(** A page without a pagination block. *)
Definition page_bare : Node :=
  Tag (u "[document]") None None
    [Tag (u "ul") (Some [u "browserFull"]) None
       [entry "12" "Y" [u "sstars9"; u "starsinfo"]]].

Definition single_bare : World :=
  collection (fun _ => Got (html_resp page_bare)).

(** Two records of the watching collection, the second with [eps]. *)
Definition two_records : value :=
  VList [VDict [(u "ep_status", VInt 3);
                (u "subject", VDict [(u "id", VInt 9);
                                     (u "name", VStr (u "Y"))])];
         VDict [(u "ep_status", VInt 0);
                (u "subject", VDict [(u "id", VInt 10);
                                     (u "name", VStr (u "V"));
                                     (u "eps", VInt 26)])]].

(** The second record has no [ep_status]. *)
Definition damaged_records : value :=
  VList [VDict [(u "ep_status", VInt 3);
                (u "subject", VDict [(u "id", VInt 9);
                                     (u "name", VStr (u "Y"))])];
         VDict [(u "subject", VDict [(u "id", VInt 10);
                                     (u "name", VStr (u "V"))])];
         VInt 0].

Definition watching_of (data : value) : World :=
  fun _ req =>
    match req with
    | GetWatching _ => Got (json_resp data)
    | _ => NoResponse
    end.

End Scenario.

(* ================================================================== *)
(** ** Properties *)
(* ================================================================== *)

Import Py Soup Http Spec Bangumi.

(** Closes [answers] and [serves] on a concrete provider. *)
Ltac answered := eexists; repeat split; reflexivity.

(** Closes [pages_before _ _ _ _ 2] when page 1 is [Scenario.page_1]. *)
Ltac first_page_good :=
  intros [|[|p]] Hp; try lia;
  split; [intros h; answered|];
  split; [exists (Scenario.control next_marker); split; [|reflexivity];
          eexists; split; reflexivity|];
  intros h item [<- | []]; reflexivity.

(** *** Strings and numbers *)

Lemma str_eqb_refl (s : pystr) : str_eqb s s = true.
Proof.
  induction s as [|a s IH]; simpl; [reflexivity|].
  now rewrite N.eqb_refl, IH.
Qed.

Lemma str_eqb_eq (s t : pystr) : str_eqb s t = true <-> s = t.
Proof.
  split.
  - revert t; induction s as [|a s IH]; intros [|b t]; simpl;
      try discriminate; [reflexivity|].
    intros H. apply andb_true_iff in H as [Hab Hst].
    apply N.eqb_eq in Hab. now rewrite Hab, (IH t Hst).
  - intros ->. apply str_eqb_refl.
Qed.

Lemma py_eq_int (a b : Z) : py_eq (VInt a) (VInt b) = (a =? b)%Z.
Proof.
  simpl. unfold Qeq_bool. simpl. now rewrite !Z.mul_1_r.
Qed.

Lemma py_lt_int (a b : Z) : py_lt (VInt a) (VInt b) = Ok (a <? b)%Z.
Proof.
  simpl. unfold Qle_bool. simpl. rewrite !Z.mul_1_r.
  now rewrite Z.ltb_antisym.
Qed.

(** *** Running a request *)

Lemma run_request_then {A} (w : World) (h : list Event) (req : Request)
    (body : value) (k : value -> M A) :
  answers w h req body ->
  (r <- request w req ;; raise_for_status r ;;; b <- json r ;; k b)%adapter h
  = k body (h ++ [Sent req]).
Proof.
  intros (r & Hw & He & Hj).
  unfold bind, request. rewrite Hw.
  unfold raise_for_status. rewrite He.
  unfold ret, json. now rewrite Hj.
Qed.

Lemma run_request_inv {A} (w : World) (h h' : list Event) (req : Request)
    (k : value -> M A) (x : A) :
  (r <- request w req ;; raise_for_status r ;;; b <- json r ;; k b)%adapter h
  = (Ok x, h') ->
  exists body, answers w h req body /\ k body (h ++ [Sent req]) = (Ok x, h').
Proof.
  unfold bind, request. destruct (w h req) as [|r] eqn:Hw; [discriminate|].
  unfold raise_for_status.
  destruct (is_error (status_code r)) eqn:He; [discriminate|].
  unfold ret, json. destruct (json_body r) as [body|] eqn:Hj;
    [|discriminate].
  intros H. exists body. split; [|exact H].
  exists r. auto.
Qed.

Lemma mapM_Forall2 {A B} (f : A -> result B) (l : list A) (l' : list B) :
  mapM f l = Ok l' -> Forall2 (fun x y => f x = Ok y) l l'.
Proof.
  revert l'. induction l as [|x l IH]; simpl; intros l' H.
  - injection H as <-. constructor.
  - destruct (f x) as [y|] eqn:Hy; [|discriminate]. simpl in H.
    destruct (mapM f l) as [ys|]; [|discriminate]. simpl in H.
    injection H as <-. constructor; auto.
Qed.

Lemma bind_ok {A B} (m : M A) (k : A -> M B) (h h' : list Event) (a : A) :
  m h = (Ok a, h') -> bind m k h = k a h'.
Proof. intros H. unfold bind. now rewrite H. Qed.

Lemma bind_inv {A B} (m : M A) (k : A -> M B) (h h' : list Event) (x : B) :
  bind m k h = (Ok x, h') ->
  exists a h1, m h = (Ok a, h1) /\ k a h1 = (Ok x, h').
Proof.
  unfold bind. destruct (m h) as [[a|e] h1]; [|discriminate].
  intros H. now exists a, h1.
Qed.

Lemma bind_lift_inv {A B} (r : result A) (k : A -> M B)
    (h h' : list Event) (x : B) :
  bind (lift r) k h = (Ok x, h') ->
  exists a, r = Ok a /\ k a h = (Ok x, h').
Proof.
  intros H. apply bind_inv in H as (a & h1 & Hr & H).
  unfold lift in Hr. injection Hr as -> <-. now exists a.
Qed.

Lemma bind_lift_ok {A B} (r : result A) (k : A -> M B) (h : list Event)
    (a : A) :
  r = Ok a -> bind (lift r) k h = k a h.
Proof. intros ->. reflexivity. Qed.

(** *** mark_as_watched *)

(** C8: [mark_as_watched] is a no-op: whatever the provider, the adapter
    and the item, the call sends nothing (the log is left as it was),
    never raises, and returns [None]. *)
Theorem mark_as_watched_noop (w : World) (self : Self)
    (anime_item : Api.AnimeItem) (h : list Event) :
  mark_as_watched w self anime_item h = (Ok VNone, h).
Proof. reflexivity. Qed.

(** *** search *)

Lemma next_anime_skips (pre rest : list value) :
  Forall not_anime pre ->
  next_anime (pre ++ rest) = next_anime rest.
Proof.
  induction 1 as [|raw pre (ty & Hty & Hne) _ IH]; simpl; [reflexivity|].
  now rewrite Hty; simpl; rewrite Hne.
Qed.

Lemma get_raw_result_run (w : World) (ttl body : value) (h : list Event) :
  answers w h (GetSearch ttl search_params) body ->
  get_raw_result w ttl h
  = (get_item body (u "list"), h ++ [Sent (GetSearch ttl search_params)]).
Proof.
  intros Ha. unfold get_raw_result.
  now rewrite (run_request_then w h _ body _ Ha).
Qed.

(** C2, as the code behaves: when the provider answers the query with
    candidates none of which has the anime type, [search] does not
    return a not-found value: [next] yields [None], [raw_to_AnimeItem]
    subscripts it, and the call raises [TypeError]. *)
Theorem search_without_anime_raises (w : World) (self : Self)
    (ttl body raws : value) (l : list value) (h : list Event) :
  answers w h (GetSearch ttl search_params) body ->
  get_item body (u "list") = Ok raws ->
  py_iter raws = Ok l ->
  Forall not_anime l ->
  search w self ttl h
  = (Raise TypeError, h ++ [Sent (GetSearch ttl search_params)]).
Proof.
  intros Ha Hlist Hiter Hall.
  pose proof (get_raw_result_run w ttl body h Ha) as Hraw.
  rewrite Hlist in Hraw.
  unfold search. rewrite (bind_ok _ _ _ _ _ Hraw).
  rewrite (bind_lift_ok _ _ _ _ Hiter).
  assert (Hnext : next_anime l = Ok VNone).
  { rewrite <- (app_nil_r l). now rewrite (next_anime_skips l [] Hall). }
  rewrite (bind_lift_ok _ _ _ _ Hnext).
  reflexivity.
Qed.

(** C7: [search] sends one request, with [max_results] set to 11; when
    the answer lists entries of other types before the first entry of
    the anime type, the call returns that entry as an [AnimeItem], with
    its name, rating score and id, no user score and no status, and an
    episode count that is the entry's [eps], or 1 when it has none. *)
Theorem search_first_anime (w : World) (self : Self) (ttl body : value)
    (pre post : list value) (d : list (pystr * value))
    (ty name rating sc i : value) (h : list Event) :
  answers w h (GetSearch ttl search_params) body ->
  get_item body (u "list") = Ok (VList (pre ++ VDict d :: post)) ->
  Forall not_anime pre ->
  lookup (u "type") d = Some ty -> py_eq ty (VInt 2) = true ->
  lookup (u "name") d = Some name ->
  lookup (u "rating") d = Some rating ->
  get_item rating (u "score") = Ok sc ->
  lookup (u "id") d = Some i ->
  search w self ttl h
  = (Ok {| Api.title := name; Api.score := sc; Api.userscore := VNone;
           Api.episode := match lookup (u "eps") d with
                          | Some e => e
                          | None => VInt 1
                          end;
           Api.status := VNone; Api.id := i |},
     h ++ [Sent (GetSearch ttl search_params)])
  /\ lookup (u "max_results") search_params = Some (u "11").
Proof.
  intros Ha Hlist Hpre Hty Hanime Hname Hrating Hsc Hid.
  split; [|reflexivity].
  pose proof (get_raw_result_run w ttl body h Ha) as Hraw.
  rewrite Hlist in Hraw.
  unfold search. rewrite (bind_ok _ _ _ _ _ Hraw).
  rewrite (bind_lift_ok _ _ _ (pre ++ VDict d :: post) eq_refl).
  assert (Hnext : next_anime (pre ++ VDict d :: post) = Ok (VDict d)).
  { rewrite (next_anime_skips pre _ Hpre).
    unfold next_anime, get_item, rbind. now rewrite Hty, Hanime. }
  rewrite (bind_lift_ok _ _ _ _ Hnext).
  unfold lift. f_equal.
  unfold raw_to_AnimeItem, rbind.
  unfold get_item at 1 2. rewrite Hname, Hrating, Hsc.
  unfold contains, get_item. rewrite Hid.
  destruct (lookup (u "eps") d); reflexivity.
Qed.

(** *** Construction *)

(** C5, as the code has it: an answer whose status is no error and whose
    JSON document cannot be subscripted with [username] or with [auth]
    makes construction fail with [LoginFailedException]; a request that
    fails is not turned into that exception: an error status leaves
    construction as the transport's [HTTPError], and no answer at all as
    its [ConnectionError]. *)
Theorem init_failures (w : World) (account password : value)
    (h : list Event) :
  (forall body,
      answers w h (PostAuth account password) body ->
      (exists e, get_item body (u "username") = Raise e) \/
      (exists e, get_item body (u "auth") = Raise e) ->
      __init__ w account password h
      = (Raise LoginFailedException, h ++ [Sent (PostAuth account password)]))
  /\ (forall r,
      w h (PostAuth account password) = Got r ->
      is_error (status_code r) = true ->
      __init__ w account password h
      = (Raise HTTPError, h ++ [Sent (PostAuth account password)]))
  /\ (w h (PostAuth account password) = NoResponse ->
      __init__ w account password h
      = (Raise ConnectionError, h ++ [Sent (PostAuth account password)])).
Proof.
  repeat split.
  - intros body Ha Hmiss. unfold __init__.
    rewrite (run_request_then w h _ body _ Ha).
    destruct Hmiss as [(e & He) | (e & He)]; rewrite He; simpl.
    + reflexivity.
    + destruct (get_item body (u "username")); reflexivity.
  - intros r Hw He. unfold __init__, bind, request. rewrite Hw.
    unfold raise_for_status. now rewrite He.
  - intros Hw. unfold __init__, bind, request. now rewrite Hw.
Qed.

(** *** watching_list *)

Lemma watching_item_fields (item : value) (a : Api.AnimeItem) :
  watching_item item = Ok a ->
  Api.score a = VNone /\ Api.userscore a = VNone /\
  (forall subject,
      get_item item (u "subject") = Ok subject ->
      contains (u "eps") subject = Ok false ->
      Api.episode a = VInt 13).
Proof.
  unfold watching_item, rbind.
  destruct (get_item item (u "ep_status")) as [st|]; [|discriminate].
  destruct (get_item item (u "subject")) as [subject|]; [|discriminate].
  destruct (contains (u "eps") subject) as [has_eps|] eqn:Hc;
    [|discriminate].
  destruct has_eps.
  - destruct (get_item subject (u "eps")) as [ep|]; [|discriminate].
    destruct (get_item subject (u "id")) as [i|]; [|discriminate].
    destruct (get_item subject (u "name")) as [name|]; [|discriminate].
    intros H; injection H as <-. simpl. repeat split.
    intros subject' H1 H2. injection H1 as <-. congruence.
  - destruct (get_item subject (u "id")) as [i|]; [|discriminate].
    destruct (get_item subject (u "name")) as [name|]; [|discriminate].
    intros H; injection H as <-. simpl. repeat split.
Qed.

(** C10: whenever [watching_list] returns, the provider answered with a
    document whose entries, in order, gave the returned items, and each
    item has no score and no user score, and the episode count 13 when
    the subject record of its entry has no [eps]. *)
Theorem watching_list_items (w : World) (self : Self) (h h' : list Event)
    (items : list Api.AnimeItem) :
  watching_list w self h = (Ok items, h') ->
  exists data records,
    answers w h (GetWatching (_uid self)) data /\
    py_iter data = Ok records /\
    Forall2 (fun record a =>
               Api.score a = VNone /\ Api.userscore a = VNone /\
               (forall subject,
                   get_item record (u "subject") = Ok subject ->
                   contains (u "eps") subject = Ok false ->
                   Api.episode a = VInt 13))
            records items.
Proof.
  intros H. unfold watching_list in H.
  apply run_request_inv in H as (data & Ha & H).
  unfold lift, rbind in H.
  destruct (py_iter data) as [records|] eqn:Hiter; [|discriminate].
  injection H as H _. apply mapM_Forall2 in H.
  exists data, records. repeat split; auto.
  eapply Forall2_impl; [|exact H].
  intros record a Hra. now apply watching_item_fields.
Qed.

(** *** The user score of a listing entry *)

Lemma digit_is_digit (c : N) :
  is_digit c -> digit c = Some (Z.of_N c - 48).
Proof.
  intros [H1 H2]. unfold digit.
  apply N.leb_le in H1, H2. now rewrite H1, H2.
Qed.

Lemma digit_not_space (c : N) : is_digit c -> is_space c = false.
Proof.
  intros [H1 H2]. unfold is_space.
  replace (c <=? 13)%N with false by (symmetry; apply N.leb_gt; lia).
  replace (c =? 32)%N with false by (symmetry; apply N.eqb_neq; lia).
  now rewrite andb_false_r.
Qed.

Lemma lstrip_no_space (s : pystr) :
  Forall (fun c => is_space c = false) s -> lstrip s = s.
Proof.
  destruct 1 as [|c s Hc _]; simpl; [reflexivity|]. now rewrite Hc.
Qed.

Lemma strip_digits (ds : pystr) : Forall is_digit ds -> strip ds = ds.
Proof.
  intros H.
  assert (Hs : Forall (fun c => is_space c = false) ds).
  { eapply Forall_impl; [|exact H]. apply digit_not_space. }
  unfold strip. rewrite (lstrip_no_space ds Hs).
  rewrite (lstrip_no_space (rev ds)) by now apply Forall_rev.
  apply rev_involutive.
Qed.

Lemma digits_acc_digits (ds : pystr) :
  Forall is_digit ds ->
  forall acc n b,
    ds <> [] \/ b = true ->
    digits_acc acc n b ds
    = Some (fold_left (fun a c => 10 * a + (Z.of_N c - 48)) ds acc,
            (n + List.length ds)%nat).
Proof.
  induction 1 as [|c ds Hc _ IH]; intros acc n b Hb; simpl.
  - destruct Hb as [Hb | ->]; [now elim Hb|].
    now rewrite Nat.add_0_r.
  - rewrite (digit_is_digit c Hc), (IH _ _ true) by now right.
    now rewrite Nat.add_succ_r.
Qed.

Lemma py_int_digits (ds : pystr) :
  ds <> [] -> Forall is_digit ds ->
  (List.length ds <= int_max_str_digits)%nat ->
  py_int ds = Ok (decimal ds).
Proof.
  intros Hne Hds Hlen. unfold py_int. rewrite (strip_digits ds Hds).
  destruct ds as [|c ds']; [now elim Hne|].
  assert (Hc : is_digit c) by now inversion Hds.
  destruct Hc as [H1 H2].
  replace (c =? 45)%N with false by (symmetry; apply N.eqb_neq; lia).
  replace (c =? 43)%N with false by (symmetry; apply N.eqb_neq; lia).
  rewrite (digits_acc_digits (c :: ds') Hds 0 0%nat false) by now left.
  apply Nat.leb_le in Hlen. cbn [Nat.add]. now rewrite Hlen.
Qed.

(** C4, as the code has it: for a listing entry whose first score-class
    token is the placeholder [starsinfo], the parsed user score is the
    number that the last class token spells after its first six
    characters. *)
Theorem score_fallback (item tag : Node) (cls : list pystr)
    (prefix ds : pystr) :
  find (u "starsinfo") item = Some tag ->
  attr_class tag = Ok cls ->
  first cls = Ok (u "starsinfo") ->
  last cls = Ok (prefix ++ ds) ->
  List.length prefix = 6%nat ->
  ds <> [] -> Forall is_digit ds ->
  (List.length ds <= int_max_str_digits)%nat ->
  score item = Ok (VInt (decimal ds)).
Proof.
  intros Hfind Hcls Hfirst Hlast Hpre Hne Hds Hlen.
  unfold score, rbind. rewrite Hfind, Hcls, Hfirst, str_eqb_refl.
  cbn [negb]. rewrite Hlast.
  replace (skipn 6 (prefix ++ ds)) with ds.
  - now rewrite (py_int_digits ds Hne Hds Hlen).
  - rewrite <- Hpre, skipn_app, Nat.sub_diag, skipn_all. reflexivity.
Qed.

(** *** Sorting integer ids *)

Lemma insert_int (x : Z) (l : list Z) :
  exists l',
    insert (VInt x) (map VInt l) = Ok (map VInt l') /\
    Permutation (x :: l) l' /\
    (StronglySorted Z.le l -> StronglySorted Z.le l').
Proof.
  induction l as [|y l (l' & Hins & Hperm & Hsorted)]; cbn [map insert].
  - exists [x]. repeat split; auto. intros _. repeat constructor.
  - rewrite py_lt_int. cbn [rbind].
    destruct (x <? y) eqn:Hxy.
    + exists (x :: y :: l). repeat split; auto.
      intros Hs. constructor; [exact Hs|].
      apply Z.ltb_lt in Hxy. inversion Hs as [|? ? _ Hall]; subst.
      constructor; [lia|].
      eapply Forall_impl; [|exact Hall]. intros z Hz. simpl in Hz. lia.
    + rewrite Hins. cbn [rbind].
      exists (y :: l'). repeat split; auto.
      * rewrite perm_swap. now constructor.
      * intros Hs. apply Z.ltb_ge in Hxy.
        inversion Hs as [|? ? Hs' Hall]; subst.
        constructor; [now apply Hsorted|].
        eapply Permutation_Forall; [exact Hperm|].
        constructor; [exact Hxy|exact Hall].
Qed.

Lemma sort_from_int (l acc : list Z) :
  StronglySorted Z.le acc ->
  exists s,
    fold_left (fun r x => rbind r (insert x)) (map VInt l)
              (Ok (map VInt acc))
    = Ok (map VInt s) /\
    Permutation (acc ++ l) s /\ StronglySorted Z.le s.
Proof.
  revert acc. induction l as [|x l IH]; intros acc Hacc; simpl.
  - exists acc. rewrite app_nil_r. auto.
  - destruct (insert_int x acc) as (acc' & Hins & Hperm & Hsorted).
    rewrite Hins.
    destruct (IH acc' (Hsorted Hacc)) as (s & Hfold & Hperm' & Hs).
    exists s. repeat split; auto.
    rewrite <- Hperm'. rewrite <- Hperm.
    symmetry. apply Permutation_middle.
Qed.

Lemma py_sort_int (zs : list Z) :
  exists s,
    py_sort (map VInt zs) = Ok (map VInt s) /\
    Permutation zs s /\ StronglySorted Z.le s.
Proof.
  destruct (sort_from_int zs []) as (s & H); [constructor|].
  exists s. exact H.
Qed.

Lemma py_mem_int (z : Z) (ws : list Z) :
  py_mem (VInt z) (map VInt ws) = true <-> In z ws.
Proof.
  unfold py_mem. rewrite existsb_exists. split.
  - intros (v & Hin & Heq). apply in_map_iff in Hin as (y & <- & Hy).
    rewrite py_eq_int in Heq. apply Z.eqb_eq in Heq. now subst.
  - intros Hin. exists (VInt z). split; [now apply in_map|].
    rewrite py_eq_int. apply Z.eqb_refl.
Qed.

Lemma py_mem_int_false (z : Z) (ws : list Z) :
  py_mem (VInt z) (map VInt ws) = false <-> ~ In z ws.
Proof.
  rewrite <- py_mem_int. now destruct (py_mem (VInt z) (map VInt ws)).
Qed.

(** In a sorted list, the first id not watched is the least one. *)
Lemma next_unwatched_least (ws s : list Z) (m : Z) :
  StronglySorted Z.le s ->
  In m s -> ~ In m ws ->
  (forall z, In z s -> ~ In z ws -> m <= z) ->
  next_unwatched (map VInt ws) (map VInt s) = VInt m.
Proof.
  unfold next_unwatched.
  induction 1 as [|y s Hs IH Hall]; intros Hin Hnot Hleast; simpl.
  - now elim Hin.
  - destruct (py_mem (VInt y) (map VInt ws)) eqn:Hy; simpl.
    + apply IH.
      * destruct Hin as [-> | Hin]; [|exact Hin].
        apply py_mem_int in Hy. now elim Hnot.
      * exact Hnot.
      * intros z Hz. apply Hleast. now right.
    + f_equal. apply py_mem_int_false in Hy.
      assert (m <= y) by (apply Hleast; [now left|exact Hy]).
      destruct Hin as [-> | Hin]; [reflexivity|].
      rewrite Forall_forall in Hall. specialize (Hall m Hin). simpl in Hall.
      lia.
Qed.

Lemma next_unwatched_none (ws s : list Z) :
  (forall z, In z s -> In z ws) ->
  next_unwatched (map VInt ws) (map VInt s) = VNone.
Proof.
  unfold next_unwatched. induction s as [|y s IH]; intros Hall; simpl.
  - reflexivity.
  - assert (Hy : py_mem (VInt y) (map VInt ws) = true).
    { apply py_mem_int, Hall. now left. }
    rewrite Hy. simpl. apply IH. intros z Hz. apply Hall. now right.
Qed.

(** *** increment_status *)

Lemma get_watched_episodes_run (w : World) (self : Self)
    (anime_item : Api.AnimeItem) (body : value) (h : list Event) :
  answers w h (progress_request self anime_item) body ->
  get_watched_episodes w self (Api.id anime_item) h
  = (episode_ids body, h ++ [Sent (progress_request self anime_item)]).
Proof.
  intros Ha. unfold get_watched_episodes.
  now rewrite (run_request_then w h _ body _ Ha).
Qed.

Lemma get_all_episodes_run (w : World) (anime_item : Api.AnimeItem)
    (body : value) (h : list Event) :
  answers w h (subject_request anime_item) body ->
  get_all_episodes w (Api.id anime_item) h
  = (episode_ids body, h ++ [Sent (subject_request anime_item)]).
Proof.
  intros Ha. unfold get_all_episodes.
  now rewrite (run_request_then w h _ body _ Ha).
Qed.

(** C1: [increment_status] asks for the watched ids and for the full
    ids; when there is an id that is not watched, it marks the least
    such id, which is the first one in sorted order, with one mutation
    request, and returns whether the code of the answer equals 200:
    [True] for 200 and [False] for any other code. *)
Theorem increment_status_marks_next (w : World) (self : Self)
    (anime_item : Api.AnimeItem) (h : list Event) (seen full : value)
    (ws zs : list Z) (m : Z) (reply code : value) :
  answers w h (progress_request self anime_item) seen ->
  episode_ids seen = Ok (map VInt ws) ->
  answers w (h ++ [Sent (progress_request self anime_item)])
          (subject_request anime_item) full ->
  episode_ids full = Ok (map VInt zs) ->
  In m zs -> ~ In m ws ->
  (forall z, In z zs -> ~ In z ws -> m <= z) ->
  answers w (h ++ [Sent (progress_request self anime_item);
                   Sent (subject_request anime_item)])
          (mark_request self m) reply ->
  get_item reply (u "code") = Ok code ->
  increment_status w self anime_item h
  = (Ok (py_eq code (VInt 200)),
     h ++ [Sent (progress_request self anime_item);
           Sent (subject_request anime_item);
           Sent (mark_request self m)])
  /\ (forall c, code = VInt c -> (py_eq code (VInt 200) = true <-> c = 200)).
Proof.
  intros Hseen Hws Hfull Hzs Hin Hnot Hleast Hmark Hcode. split.
  - pose proof (get_watched_episodes_run w self anime_item seen h Hseen)
      as H1. rewrite Hws in H1.
    pose proof (get_all_episodes_run w anime_item full _ Hfull) as H2.
    rewrite Hzs in H2.
    destruct (py_sort_int zs) as (s & Hsort & Hperm & Hsorted).
    unfold increment_status.
    rewrite (bind_ok _ _ _ _ _ H1), (bind_ok _ _ _ _ _ H2).
    rewrite (bind_lift_ok _ _ _ _ Hsort).
    rewrite (next_unwatched_least ws s m Hsorted).
    + rewrite <- app_assoc. simpl app.
      fold (mark_request self m).
      rewrite (run_request_then w _ _ reply _ Hmark).
      rewrite (bind_lift_ok _ _ _ _ Hcode).
      unfold ret. now rewrite <- app_assoc.
    + now apply (Permutation_in _ Hperm).
    + exact Hnot.
    + intros z Hz. apply Hleast.
      now apply (Permutation_in _ (Permutation_sym Hperm)).
  - intros c ->. rewrite py_eq_int. apply Z.eqb_eq.
Qed.

(** C6: when every id of the full list is among the watched ids,
    [increment_status] returns [False] after its two queries: the log
    holds no mutation request. *)
Theorem increment_status_all_watched (w : World) (self : Self)
    (anime_item : Api.AnimeItem) (h : list Event) (seen full : value)
    (ws zs : list Z) :
  answers w h (progress_request self anime_item) seen ->
  episode_ids seen = Ok (map VInt ws) ->
  answers w (h ++ [Sent (progress_request self anime_item)])
          (subject_request anime_item) full ->
  episode_ids full = Ok (map VInt zs) ->
  (forall z, In z zs -> In z ws) ->
  increment_status w self anime_item h
  = (Ok false,
     h ++ [Sent (progress_request self anime_item);
           Sent (subject_request anime_item)])
  /\ mutations [Sent (progress_request self anime_item);
                Sent (subject_request anime_item)] = [].
Proof.
  intros Hseen Hws Hfull Hzs Hall. split; [|reflexivity].
  pose proof (get_watched_episodes_run w self anime_item seen h Hseen)
    as H1. rewrite Hws in H1.
  pose proof (get_all_episodes_run w anime_item full _ Hfull) as H2.
  rewrite Hzs in H2.
  destruct (py_sort_int zs) as (s & Hsort & Hperm & Hsorted).
  unfold increment_status.
  rewrite (bind_ok _ _ _ _ _ H1), (bind_ok _ _ _ _ _ H2).
  rewrite (bind_lift_ok _ _ _ _ Hsort).
  rewrite (next_unwatched_none ws s).
  - unfold ret. now rewrite <- app_assoc.
  - intros z Hz. apply Hall.
    now apply (Permutation_in _ (Permutation_sym Hperm)).
Qed.

(** *** watched_list *)

Lemma has_next_page_present (doc : Node) :
  next_marker_present doc -> has_next_page doc = Ok true.
Proof.
  intros (c & (pages & Hfind & Hlast) & Hstr).
  unfold has_next_page. rewrite Hfind, Hlast. cbn [rbind].
  now rewrite Hstr, str_eqb_refl.
Qed.

Lemma has_next_page_absent (doc : Node) :
  next_marker_absent doc -> has_next_page doc = Ok false.
Proof.
  intros (c & (pages & Hfind & Hlast) & Hstr).
  unfold has_next_page. rewrite Hfind, Hlast. cbn [rbind].
  destruct (string_of c) as [s|]; [|reflexivity].
  destruct (str_eqb s next_marker) eqn:Heq; [|reflexivity].
  apply str_eqb_eq in Heq. subst. now elim Hstr.
Qed.

Lemma collect_pages_app (a b : list Event) :
  collect_pages (a ++ b) = collect_pages a ++ collect_pages b.
Proof.
  induction a as [|[[]|] a IH]; simpl; auto. now rewrite IH.
Qed.

(** Parsing an item asks for no page of the listing. *)
Lemma bgmanime_log (w : World) (self : Self) (item : Node)
    (h : list Event) :
  exists evs,
    snd (_bgmanime w self item h) = h ++ evs /\ collect_pages evs = [].
Proof.
  unfold _bgmanime, episodes, bind, lift, request, raise_for_status,
    json, ret, raise.
  destruct (title item); [|exists []; now rewrite app_nil_r].
  destruct (score item); [|exists []; now rewrite app_nil_r].
  destruct (attr_id item) as [iid|]; [|exists []; now rewrite app_nil_r].
  destruct (last (split_on 95 iid)) as [sid|];
    [|exists []; now rewrite app_nil_r].
  exists [Sent (GetSubjectSimple sid (_auth self))]. split; [|reflexivity].
  destruct (w h (GetSubjectSimple sid (_auth self))) as [|r];
    [reflexivity|].
  destruct (is_error (status_code r)); [reflexivity|].
  destruct (json_body r) as [data|]; [|reflexivity].
  now destruct (rbind (get_item data (u "eps")) _).
Qed.

Section Pages.

Variables (w : World) (self : Self).
Variable parsed : Node -> Api.AnimeItem.

Lemma append_items_run (items : list Node) :
  (forall h item,
      In item items -> fst (_bgmanime w self item h) = Ok (parsed item)) ->
  forall acc h,
  exists evs,
    append_items w self items acc h
    = (Ok (acc ++ map parsed items), h ++ evs) /\
    collect_pages evs = [].
Proof.
  induction items as [|item items IH]; intros Hparse acc h; simpl.
  - exists []. unfold ret. now rewrite !app_nil_r.
  - destruct (bgmanime_log w self item h) as (evs1 & Hlog & Hnone).
    specialize (Hparse h item (or_introl eq_refl)) as Hitem.
    destruct (_bgmanime w self item h) as [res h1] eqn:Hrun.
    simpl in Hlog, Hitem. subst res h1.
    rewrite (bind_ok _ _ _ _ _ Hrun).
    destruct (IH (fun h' it Hin => Hparse h' it (or_intror Hin))
                 (acc ++ [parsed item]) (h ++ evs1))
      as (evs2 & Hrest & Hnone2).
    exists (evs1 ++ evs2). rewrite Hrest. split.
    + now rewrite <- !app_assoc.
    + now rewrite collect_pages_app, Hnone, Hnone2.
Qed.

(** One turn of the loop. *)
Lemma watched_loop_step (fuel : nat) (page : Z) (doc : Node)
    (acc acc' : list Api.AnimeItem) (h h' : list Event) (more : bool) :
  serves w h (GetCollect (_uid self) page) doc ->
  append_items w self (entries doc) acc
               (h ++ [Sent (GetCollect (_uid self) page)])
  = (Ok acc', h') ->
  has_next_page doc = Ok more ->
  watched_loop (S fuel) w self page acc h
  = if more
    then watched_loop fuel w self (page + 1) acc' (h' ++ [Slept 1])
    else (Ok (Some acc'), h').
Proof.
  intros (r & Hw & He & Hdoc) Happ Hmore. cbn [watched_loop].
  assert (Hreq : request w (GetCollect (_uid self) page) h
                 = (Ok r, h ++ [Sent (GetCollect (_uid self) page)])).
  { unfold request. now rewrite Hw. }
  rewrite (bind_ok _ _ _ _ _ Hreq).
  assert (Hst : raise_for_status r
                  (h ++ [Sent (GetCollect (_uid self) page)])
                = (Ok tt, h ++ [Sent (GetCollect (_uid self) page)])).
  { unfold raise_for_status. now rewrite He. }
  rewrite (bind_ok _ _ _ _ _ Hst). cbv zeta. rewrite Hdoc.
  fold (entries doc). rewrite (bind_ok _ _ _ _ _ Happ).
  rewrite (bind_lift_ok _ _ _ _ Hmore).
  destruct more; reflexivity.
Qed.

Variables (K : nat) (page : nat -> Node).

Hypothesis served : forall h p,
  (1 <= p <= K)%nat ->
  serves w h (GetCollect (_uid self) (Z.of_nat p)) (page p).
Hypothesis marked : forall p,
  (1 <= p < K)%nat -> next_marker_present (page p).
Hypothesis unmarked : next_marker_absent (page K).
Hypothesis parses : forall h p item,
  (1 <= p <= K)%nat -> In item (entries (page p)) ->
  fst (_bgmanime w self item h) = Ok (parsed item).

(** The loop entered at page [p], with [n] pages after it. *)
Lemma watched_loop_run (n : nat) :
  forall p fuel acc h,
    (1 <= p)%nat -> (p + n = K)%nat -> (n < fuel)%nat ->
    exists evs,
      watched_loop fuel w self (Z.of_nat p) acc h
      = (Ok (Some (acc ++ flat_map (fun q => map parsed (entries (page q)))
                                   (seq p (S n)))),
         h ++ evs) /\
      collect_pages evs = map Z.of_nat (seq p (S n)).
Proof.
  induction n as [|n IH]; intros p fuel acc h Hp HK Hfuel;
    (destruct fuel as [|fuel]; [lia|]);
    destruct (append_items_run (entries (page p))
                (fun h' it Hin => parses h' p it ltac:(lia) Hin) acc
                (h ++ [Sent (GetCollect (_uid self) (Z.of_nat p))]))
      as (evs1 & Happ & Hnone).
  - assert (p = K) by lia. subst p.
    rewrite (watched_loop_step fuel _ (page K) acc _ h _ false
               (served h K ltac:(lia)) Happ
               (has_next_page_absent _ unmarked)).
    exists (Sent (GetCollect (_uid self) (Z.of_nat K)) :: evs1).
    cbn [seq flat_map]. rewrite app_nil_r, <- app_assoc. split.
    + reflexivity.
    + cbn [collect_pages map]. now rewrite Hnone.
  - rewrite (watched_loop_step fuel _ (page p) acc _ h _ true
               (served h p ltac:(lia)) Happ
               (has_next_page_present _ (marked p ltac:(lia)))).
    replace (Z.of_nat p + 1) with (Z.of_nat (S p)) by lia.
    destruct (IH (S p) fuel (acc ++ map parsed (entries (page p)))
                 (((h ++ [Sent (GetCollect (_uid self) (Z.of_nat p))])
                   ++ evs1) ++ [Slept 1])
                 ltac:(lia) ltac:(lia) ltac:(lia))
      as (evs2 & Hloop & Hpages).
    rewrite Hloop.
    exists (Sent (GetCollect (_uid self) (Z.of_nat p)) :: evs1
            ++ Slept 1 :: evs2).
    split.
    + f_equal.
      * cbn [seq flat_map]. now rewrite <- app_assoc.
      * rewrite <- !app_assoc. reflexivity.
    + cbn [collect_pages]. rewrite collect_pages_app, Hnone.
      cbn [collect_pages app]. rewrite Hpages. reflexivity.
Qed.

End Pages.

(** C3: when the provider serves the pages 1 to K of the collection,
    the last pagination control is labelled with the next-page marker
    on the pages before K and with something else on page K, and the
    entries of these pages parse, [watched_list] reaches its [break]
    within K turns: it asks for the pages 1, 2, ..., K, in this order
    and for no other page, and returns the parsed entries of page 1 in
    page order, then those of page 2, and so on up to page K. *)
Theorem watched_list_pages (w : World) (self : Self)
    (parsed : Node -> Api.AnimeItem) (K : nat) (page : nat -> Node) :
  (1 <= K)%nat ->
  (forall h p, (1 <= p <= K)%nat ->
     serves w h (GetCollect (_uid self) (Z.of_nat p)) (page p)) ->
  (forall p, (1 <= p < K)%nat -> next_marker_present (page p)) ->
  next_marker_absent (page K) ->
  (forall h p item,
     (1 <= p <= K)%nat -> In item (entries (page p)) ->
     fst (_bgmanime w self item h) = Ok (parsed item)) ->
  forall fuel h,
    (K <= fuel)%nat ->
    exists evs,
      watched_list fuel w self h
      = (Ok (Some (flat_map (fun p => map parsed (entries (page p)))
                            (seq 1 K))),
         h ++ evs) /\
      collect_pages evs = map Z.of_nat (seq 1 K).
Proof.
  intros HK Hserved Hmarked Hunmarked Hparses fuel h Hfuel.
  destruct K as [|n]; [lia|].
  exact (watched_loop_run w self parsed (S n) page Hserved Hmarked
           Hunmarked Hparses n 1%nat fuel [] h ltac:(lia) ltac:(lia)
           ltac:(lia)).
Qed.

(** What holds of every parsed item holds of every item of the
    list. *)
Section Items.

Variables (w : World) (self : Self).
Variable P : Api.AnimeItem -> Prop.
Hypothesis parsed_P : forall item h h' a,
  _bgmanime w self item h = (Ok a, h') -> P a.



End Items.





(* ================================================================== *)
(** ** The properties on the concrete providers *)
(* ================================================================== *)

(** Episodes [5, 1, 3] with [1, 3] watched: episode 5 is marked. *)
Lemma increment_status_marks_next_witness :
  increment_status (Scenario.episodes_5_1_3 [1; 3] 200) Scenario.self
                   Scenario.anime []
  = (Ok true,
     [Sent (progress_request Scenario.self Scenario.anime);
      Sent (subject_request Scenario.anime);
      Sent (mark_request Scenario.self 5)]).
Proof.
  refine (proj1 (increment_status_marks_next
                   (Scenario.episodes_5_1_3 [1; 3] 200) Scenario.self
                   Scenario.anime [] (Scenario.eps [1; 3])
                   (Scenario.eps [5; 1; 3]) [1; 3] [5; 1; 3] 5
                   (VDict [(u "code", VInt 200)]) (VInt 200)
                   _ _ _ _ _ _ _ _ _)).
  - answered.
  - reflexivity.
  - answered.
  - reflexivity.
  - simpl. auto.
  - intros [H | [H | []]]; discriminate H.
  - intros z [<- | [<- | [<- | []]]] Hz.
    + lia.
    + exfalso. apply Hz. simpl. auto.
    + exfalso. apply Hz. simpl. auto.
  - answered.
  - reflexivity.
Defined.

(** Episodes [5, 1, 3], all watched: nothing is marked. *)
Lemma increment_status_all_watched_witness :
  increment_status (Scenario.episodes_5_1_3 [1; 3; 5] 200) Scenario.self
                   Scenario.anime []
  = (Ok false,
     [Sent (progress_request Scenario.self Scenario.anime);
      Sent (subject_request Scenario.anime)]).
Proof.
  refine (proj1 (increment_status_all_watched
                   (Scenario.episodes_5_1_3 [1; 3; 5] 200) Scenario.self
                   Scenario.anime [] (Scenario.eps [1; 3; 5])
                   (Scenario.eps [5; 1; 3]) [1; 3; 5] [5; 1; 3]
                   _ _ _ _ _)).
  - answered.
  - reflexivity.
  - answered.
  - reflexivity.
  - intros z [<- | [<- | [<- | []]]]; simpl; auto.
Defined.

(** A book only: the search raises. *)
Lemma search_without_anime_raises_witness :
  search (Scenario.found [Scenario.book]) Scenario.self (VStr (u "X")) []
  = (Raise TypeError, [Sent (GetSearch (VStr (u "X")) search_params)]).
Proof.
  apply (search_without_anime_raises
           (Scenario.found [Scenario.book]) Scenario.self (VStr (u "X"))
           (VDict [(u "list", VList [Scenario.book])])
           (VList [Scenario.book]) [Scenario.book] []).
  - answered.
  - reflexivity.
  - reflexivity.
  - constructor; [|constructor]. exists (VInt 1). split; reflexivity.
Defined.

(** A book, then a series without [eps]: the series, with 1 episode. *)
Lemma search_first_anime_witness :
  search (Scenario.found [Scenario.book; Scenario.series]) Scenario.self
         (VStr (u "X")) []
  = (Ok (Api.mkAnimeItem (VStr (u "X")) (VFloat (75 # 10)) VNone (VInt 1)
                         VNone (VInt 7)),
     [Sent (GetSearch (VStr (u "X")) search_params)]).
Proof.
  refine (proj1 (search_first_anime
                   (Scenario.found [Scenario.book; Scenario.series])
                   Scenario.self (VStr (u "X"))
                   (VDict [(u "list",
                            VList [Scenario.book; Scenario.series])])
                   [Scenario.book] []
                   [(u "id", VInt 7); (u "name", VStr (u "X"));
                    (u "rating", VDict [(u "score", VFloat (75 # 10))]);
                    (u "type", VInt 2)]
                   (VInt 2) (VStr (u "X"))
                   (VDict [(u "score", VFloat (75 # 10))])
                   (VFloat (75 # 10)) (VInt 7) []
                   _ _ _ _ _ _ _ _ _)).
  - answered.
  - reflexivity.
  - constructor; [|constructor]. exists (VInt 1). split; reflexivity.
  - reflexivity.
  - reflexivity.
  - reflexivity.
  - reflexivity.
  - reflexivity.
  - reflexivity.
Defined.

(** An answer without the fields, an error status, no answer. *)
Lemma init_failures_witness :
  __init__ (Scenario.auth_answer (Scenario.json_resp Scenario.unauthorized))
           (VStr (u "a@b.c")) (VStr (u "secret")) []
  = (Raise LoginFailedException,
     [Sent (PostAuth (VStr (u "a@b.c")) (VStr (u "secret")))])
  /\ __init__ (Scenario.auth_answer
                 (mkResp 401 (Some Scenario.unauthorized) (Text [])))
              (VStr (u "a@b.c")) (VStr (u "secret")) []
     = (Raise HTTPError,
        [Sent (PostAuth (VStr (u "a@b.c")) (VStr (u "secret")))])
  /\ __init__ (fun _ _ => NoResponse)
              (VStr (u "a@b.c")) (VStr (u "secret")) []
     = (Raise ConnectionError,
        [Sent (PostAuth (VStr (u "a@b.c")) (VStr (u "secret")))]).
Proof.
  split; [|split].
  - apply (proj1 (init_failures _ _ _ []) Scenario.unauthorized).
    + answered.
    + left. exists KeyError. reflexivity.
  - apply (proj1 (proj2 (init_failures _ _ _ []))
             (mkResp 401 (Some Scenario.unauthorized) (Text []))).
    + reflexivity.
    + reflexivity.
  - apply (proj2 (proj2 (init_failures _ _ _ []))). reflexivity.
Defined.

(** C5 fails where the request fails: the provider rejects the
    credentials with status 401, and construction raises the transport's
    [HTTPError], not [LoginFailedException]. *)
Lemma init_http_error_counterexample :
  is_error 401 = true /\
  fst (__init__ (Scenario.auth_answer
                   (mkResp 401 (Some Scenario.unauthorized) (Text [])))
                (VStr (u "a@b.c")) (VStr (u "wrong")) [])
  = Raise HTTPError /\
  fst (__init__ (Scenario.auth_answer
                   (mkResp 401 (Some Scenario.unauthorized) (Text [])))
                (VStr (u "a@b.c")) (VStr (u "wrong")) [])
  <> Raise LoginFailedException.
Proof.
  repeat split. discriminate.
Qed.

(** The placeholder first, then [sstars9]: the score is 9. *)
Lemma score_fallback_witness :
  score (Scenario.entry "34" "Z" [u "starsinfo"; u "sstars9"])
  = Ok (VInt 9).
Proof.
  apply (score_fallback
           (Scenario.entry "34" "Z" [u "starsinfo"; u "sstars9"])
           (Tag (u "span") (Some [u "starsinfo"; u "sstars9"]) None [])
           [u "starsinfo"; u "sstars9"] (u "sstars") (u "9")).
  - reflexivity.
  - reflexivity.
  - reflexivity.
  - reflexivity.
  - reflexivity.
  - discriminate.
  - constructor; [|constructor]. unfold is_digit. simpl. lia.
  - unfold int_max_str_digits. simpl. lia.
Defined.

(** C4 fails on its own example: with the placeholder first and
    [starsinfo9] last, the adapter parses what follows the sixth
    character of [starsinfo9], which is [nfo9], and [int] raises. *)
Lemma score_starsinfo9_counterexample :
  first [u "starsinfo"; u "starsinfo9"] = Ok (u "starsinfo") /\
  last [u "starsinfo"; u "starsinfo9"] = Ok (u "starsinfo9") /\
  skipn 6 (u "starsinfo9") = u "nfo9" /\
  score (Scenario.entry "34" "Z" [u "starsinfo"; u "starsinfo9"])
  = Raise ValueError /\
  score (Scenario.entry "34" "Z" [u "starsinfo"; u "starsinfo9"])
  <> Ok (VInt 9).
Proof.
  repeat split. discriminate.
Qed.

(** Two pages, fetched in order, with their two items. *)
Lemma watched_list_pages_witness :
  exists evs,
    watched_list 5 Scenario.two_pages Scenario.self []
    = (Ok (Some (flat_map (fun p => map Scenario.parsed
                                        (entries (Scenario.page p)))
                          (seq 1 2))),
       [] ++ evs) /\
    collect_pages evs = map Z.of_nat (seq 1 2).
Proof.
  apply (watched_list_pages Scenario.two_pages Scenario.self
           Scenario.parsed 2 Scenario.page).
  - lia.
  - intros h [|[|[|p]]] Hp; try lia; answered.
  - intros [|[|p]] Hp; try lia.
    exists (Scenario.control next_marker). split; [|reflexivity].
    eexists. split; reflexivity.
  - exists (Scenario.control (u "2")). split.
    + eexists. split; reflexivity.
    + discriminate.
  - intros h [|[|[|p]]] item Hp Hin; try lia;
      destruct Hin as [<- | []]; reflexivity.
  - lia.
Defined.



(** One anime in progress, its subject without [eps]: 13 episodes. *)
Lemma watching_list_items_witness :
  exists data records,
    answers Scenario.watching [] (GetWatching (_uid Scenario.self)) data /\
    py_iter data = Ok records /\
    Forall2 (fun record a =>
               Api.score a = VNone /\ Api.userscore a = VNone /\
               (forall subject,
                   get_item record (u "subject") = Ok subject ->
                   contains (u "eps") subject = Ok false ->
                   Api.episode a = VInt 13))
            records
            [Api.mkAnimeItem (VStr (u "Y")) VNone VNone (VInt 13) (VInt 3)
                             (VInt 9)].
Proof.
  apply (watching_list_items Scenario.watching Scenario.self []
           (snd (watching_list Scenario.watching Scenario.self []))).
  reflexivity.
Defined.

(* ================================================================== *)
(** ** Further properties of the adapter *)
(* ================================================================== *)

(** *** The traffic of one JSON request *)

(** A request whose JSON answer is decoded by [f]: the log grows by this
    one request whatever happens; a result comes from an answered
    request, an exception from the transport or from [f]. *)
Lemma json_request_cases {A} (w : World) (req : Request)
    (f : value -> result A) (h : list Event) :
  exists res,
    (r <- request w req ;; raise_for_status r ;;; b <- json r ;;
     lift (f b))%adapter h
    = (res, h ++ [Sent req]) /\
    (forall x, res = Ok x ->
       exists body, answers w h req body /\ f body = Ok x) /\
    (forall e, res = Raise e ->
       transport_failure e \/
       exists body, answers w h req body /\ f body = Raise e).
Proof.
  unfold bind, request, raise_for_status, json, lift, ret, raise,
    transport_failure.
  destruct (w h req) as [|r] eqn:Hw.
  - eexists. split; [reflexivity|]. split; intros ? H; [discriminate|].
    injection H as <-. auto.
  - destruct (is_error (status_code r)) eqn:He.
    + eexists. split; [reflexivity|]. split; intros ? H; [discriminate|].
      injection H as <-. auto.
    + destruct (json_body r) as [body|] eqn:Hj.
      * exists (f body). split; [reflexivity|].
        split; intros ? H; [|right]; exists body; split; auto;
          exists r; auto.
      * eexists. split; [reflexivity|].
        split; intros ? H; [discriminate|]. injection H as <-. auto.
Qed.

(** *** Construction *)

(** X1: Construction succeeds exactly when the provider answers the
    authentication request with a status that is no error and a JSON
    document that has [username] and [auth]; the session keeps these
    two values, and the log grows by the one request. *)
Theorem init_success_iff (w : World) (account password : value)
    (h h' : list Event) (self : Self) :
  __init__ w account password h = (Ok self, h') <->
  exists body,
    answers w h (PostAuth account password) body /\
    get_item body (u "username") = Ok (_uid self) /\
    get_item body (u "auth") = Ok (_auth self) /\
    h' = h ++ [Sent (PostAuth account password)].
Proof.
  split.
  - intros H. unfold __init__ in H.
    apply run_request_inv in H as (body & Ha & H).
    exists body. split; [exact Ha|].
    destruct (get_item body (u "username")) as [uid|]; [|discriminate].
    destruct (get_item body (u "auth")) as [auth|]; [|discriminate].
    cbn [rbind] in H. unfold ret in H. injection H as <- <-. auto.
  - intros (body & Ha & Hu & Hauth & ->). unfold __init__.
    rewrite (run_request_then w h _ body _ Ha), Hu, Hauth.
    destruct self. reflexivity.
Qed.

(** X2: Construction sends the authentication request and nothing
    else, on every path.  It fails with [LoginFailedException] exactly
    when the provider answered with a status that is no error and a
    decoded document that cannot be subscripted with [username] or with
    [auth]: that exception never stands for a failed request.  And once
    the answer is decoded, construction succeeds or raises
    [LoginFailedException]: the [KeyError] or [TypeError] of a subscript
    never leaves it. *)
Theorem init_login_failed_iff (w : World) (account password : value)
    (h h' : list Event) :
  snd (__init__ w account password h)
  = h ++ [Sent (PostAuth account password)] /\
  (__init__ w account password h = (Raise LoginFailedException, h') <->
   exists body,
     answers w h (PostAuth account password) body /\
     ((exists e, get_item body (u "username") = Raise e) \/
      (exists e, get_item body (u "auth") = Raise e)) /\
     h' = h ++ [Sent (PostAuth account password)]) /\
  (forall body,
      answers w h (PostAuth account password) body ->
      (exists self, fst (__init__ w account password h) = Ok self) \/
      fst (__init__ w account password h) = Raise LoginFailedException).
Proof.
  assert (Hdecoded : forall body,
             answers w h (PostAuth account password) body ->
             __init__ w account password h
             = (match get_item body (u "username"),
                      get_item body (u "auth") with
                | Ok uid, Ok auth => Ok (mkSelf uid auth)
                | _, _ => Raise LoginFailedException
                end,
                h ++ [Sent (PostAuth account password)])).
  { intros body Ha. unfold __init__.
    rewrite (run_request_then w h _ body _ Ha).
    destruct (get_item body (u "username")) as [uid|];
      [destruct (get_item body (u "auth")) as [auth|]|]; reflexivity. }
  split; [|split].
  - unfold __init__, bind, request, raise_for_status, json, ret, raise.
    destruct (w h (PostAuth account password)) as [|r]; [reflexivity|].
    destruct (is_error (status_code r)); [reflexivity|].
    destruct (json_body r) as [body|]; [|reflexivity].
    destruct (get_item body (u "username")) as [uid|];
      [destruct (get_item body (u "auth")) as [auth|]|]; reflexivity.
  - split.
    + intros H.
      assert (exists body, answers w h (PostAuth account password) body)
        as (body & Ha).
      { unfold __init__, bind, request, raise_for_status, json, ret,
          raise in H.
        destruct (w h (PostAuth account password)) as [|r] eqn:Hw;
          [discriminate|].
        destruct (is_error (status_code r)) eqn:He; [discriminate|].
        destruct (json_body r) as [body|] eqn:Hj; [|discriminate].
        exists body, r. auto. }
      exists body. split; [exact Ha|].
      rewrite (Hdecoded body Ha) in H.
      destruct (get_item body (u "username")) as [uid|e1].
      * destruct (get_item body (u "auth")) as [auth|e2];
          [discriminate|].
        injection H as <-. split; [right; now exists e2|reflexivity].
      * injection H as <-. split; [left; now exists e1|reflexivity].
    + intros (body & Ha & Hmiss & ->). rewrite (Hdecoded body Ha).
      destruct Hmiss as [(e & ->) | (e & ->)]; [reflexivity|].
      now destruct (get_item body (u "username")).
  - intros body Ha. rewrite (Hdecoded body Ha). cbn [fst].
    destruct (get_item body (u "username")) as [uid|];
      [destruct (get_item body (u "auth")) as [auth|]|]; eauto.
Qed.

(** *** watching_list *)

Lemma watching_item_record (record : value) (a : Api.AnimeItem) :
  watching_record record a -> watching_item record = Ok a.
Proof.
  intros (st & d & i & name & Hst & Hsub & Hi & Hname & ->).
  unfold watching_item, rbind. rewrite Hst, Hsub.
  unfold contains, get_item. rewrite Hi, Hname.
  destruct (lookup (u "eps") d); reflexivity.
Qed.

Lemma mapM_all {A B} (f : A -> result B) (l : list A) (l' : list B) :
  Forall2 (fun x y => f x = Ok y) l l' -> mapM f l = Ok l'.
Proof.
  induction 1 as [|x y l l' Hxy _ IH]; simpl; [reflexivity|].
  now rewrite Hxy, IH.
Qed.

Lemma mapM_first_failure {A B} (f : A -> result B) (pre post : list A)
    (bad : A) (e : exn) :
  Forall (fun x => exists y, f x = Ok y) pre ->
  f bad = Raise e ->
  mapM f (pre ++ bad :: post) = Raise e.
Proof.
  intros Hpre Hbad.
  induction Hpre as [|x pre (y & Hy) _ IH]; simpl.
  - now rewrite Hbad.
  - now rewrite Hy, IH.
Qed.

(** X3: When the provider answers with a list of records that have
    [ep_status] and a subject with [id] and [name], [watching_list]
    returns one item per record, in the order of the records, with the
    record's status, id and name, and the subject's [eps], or 13. *)
Theorem watching_list_records (w : World) (self : Self) (h : list Event)
    (records : list value) (items : list Api.AnimeItem) :
  answers w h (GetWatching (_uid self)) (VList records) ->
  Forall2 watching_record records items ->
  watching_list w self h
  = (Ok items, h ++ [Sent (GetWatching (_uid self))]).
Proof.
  intros Ha Hall. unfold watching_list.
  rewrite (run_request_then w h _ (VList records) _ Ha).
  unfold lift. cbn [py_iter rbind]. f_equal.
  apply mapM_all. eapply Forall2_impl; [|exact Hall].
  intros record a. apply watching_item_record.
Qed.

(** X4: One record that cannot be converted loses the whole list: when the
    records before it convert and it raises, [watching_list] raises the
    same exception and returns no item, whatever follows. *)
Theorem watching_list_all_or_nothing (w : World) (self : Self)
    (h : list Event) (pre post : list value) (bad : value) (e : exn) :
  answers w h (GetWatching (_uid self)) (VList (pre ++ bad :: post)) ->
  Forall (fun record => exists a, watching_item record = Ok a) pre ->
  watching_item bad = Raise e ->
  watching_list w self h
  = (Raise e, h ++ [Sent (GetWatching (_uid self))]).
Proof.
  intros Ha Hpre Hbad. unfold watching_list.
  rewrite (run_request_then w h _ _ _ Ha).
  unfold lift. cbn [py_iter rbind]. f_equal.
  now apply mapM_first_failure.
Qed.

(** X6: [watching_list] and [search] send one request each, whatever the
    provider answers and whether they return or raise. *)
Theorem one_request_each (w : World) (self : Self) (ttl : value)
    (h : list Event) :
  snd (watching_list w self h) = h ++ [Sent (GetWatching (_uid self))] /\
  snd (search w self ttl h) = h ++ [Sent (GetSearch ttl search_params)].
Proof.
  split.
  - unfold watching_list.
    destruct (json_request_cases w (GetWatching (_uid self))
                (fun data => items <~ py_iter data ;;
                             mapM watching_item items)%adapter h)
      as (res & Hrun & _).
    now rewrite Hrun.
  - unfold search.
    destruct (json_request_cases w (GetSearch ttl search_params)
                (fun result => get_item result (u "list")) h)
      as (res & Hrun & _).
    unfold get_raw_result, bind at 1. rewrite Hrun.
    destruct res as [raws|]; [|reflexivity].
    unfold bind, lift.
    destruct (py_iter raws) as [l|]; [|reflexivity].
    now destruct (next_anime l).
Qed.

(** *** search *)

Lemma next_anime_inv (l : list value) (raw : value) :
  next_anime l = Ok raw ->
  (raw = VNone /\ Forall not_anime l) \/
  (exists pre post ty,
      l = pre ++ raw :: post /\ Forall not_anime pre /\
      get_item raw (u "type") = Ok ty /\ py_eq ty (VInt 2) = true).
Proof.
  induction l as [|x l IH]; cbn [next_anime]; intros H.
  - injection H as <-. left. auto.
  - destruct (get_item x (u "type")) as [ty|] eqn:Hty; [|discriminate].
    cbn [rbind] in H. destruct (py_eq ty (VInt 2)) eqn:Heq.
    + injection H as <-. right. exists [], l, ty. auto.
    + assert (Hx : not_anime x) by (exists ty; auto).
      destruct (IH H) as [(-> & Hall) | (pre & post & ty' & -> & Hp & Hr)].
      * left. auto.
      * right. exists (x :: pre), post, ty'. split; [reflexivity|].
        split; [now constructor|exact Hr].
Qed.

(** X7: Whatever [search] returns comes from the first candidate of the
    anime type: when it returns an item, the provider answered with
    candidates among which one has type 2 and only candidates of other
    types before it, and the item has the name, the rating score and
    the id of that candidate, its [eps] or 1 as episode count, and
    neither user score nor status. *)
Theorem search_sound (w : World) (self : Self) (ttl : value)
    (h h' : list Event) (a : Api.AnimeItem) :
  search w self ttl h = (Ok a, h') ->
  exists body raws pre d post ty rating,
    answers w h (GetSearch ttl search_params) body /\
    get_item body (u "list") = Ok raws /\
    py_iter raws = Ok (pre ++ VDict d :: post) /\
    Forall not_anime pre /\
    lookup (u "type") d = Some ty /\ py_eq ty (VInt 2) = true /\
    lookup (u "name") d = Some (Api.title a) /\
    lookup (u "rating") d = Some rating /\
    get_item rating (u "score") = Ok (Api.score a) /\
    lookup (u "id") d = Some (Api.id a) /\
    Api.episode a = match lookup (u "eps") d with
                    | Some e => e
                    | None => VInt 1
                    end /\
    Api.userscore a = VNone /\ Api.status a = VNone.
Proof.
  intros H. unfold search in H.
  apply bind_inv in H as (raws & h1 & Hraw & H).
  unfold get_raw_result in Hraw.
  apply run_request_inv in Hraw as (body & Ha & Hraw).
  unfold lift in Hraw. injection Hraw as Hlist _.
  apply bind_lift_inv in H as (l & Hiter & H).
  apply bind_lift_inv in H as (raw & Hnext & H).
  unfold lift in H. injection H as Hitem _.
  apply next_anime_inv in Hnext
    as [(-> & _) | (pre & post & ty & -> & Hpre & Hty & Heq)];
    [discriminate|].
  destruct raw as [| | | | |?|d]; try discriminate.
  unfold raw_to_AnimeItem, rbind, contains in Hitem.
  unfold get_item in Hty, Hitem at 1 2 4 5.
  destruct (lookup (u "type") d) as [ty'|] eqn:Hty'; [|discriminate].
  injection Hty as ->.
  destruct (lookup (u "name") d) as [name|] eqn:Hname; [|discriminate].
  destruct (lookup (u "rating") d) as [rating|] eqn:Hrating;
    [|discriminate].
  destruct (get_item rating (u "score")) as [sc|] eqn:Hsc;
    [|discriminate].
  exists body, raws, pre, d, post, ty, rating.
  destruct (lookup (u "eps") d) as [e|];
    (destruct (lookup (u "id") d) as [i|]; [|discriminate]);
    injection Hitem as <-; cbn; repeat split; auto.
Qed.

(** *** Parsing a listing entry *)

(** X9: The score of an entry whose first score-class token is not the
    placeholder: the number that this first token spells after its
    first six characters, whatever tokens follow it. *)
Theorem score_primary (item tag : Node) (cls : list pystr)
    (prefix ds : pystr) :
  find (u "starsinfo") item = Some tag ->
  attr_class tag = Ok cls ->
  first cls = Ok (prefix ++ ds) ->
  List.length prefix = 6%nat ->
  ds <> [] -> Forall is_digit ds ->
  (List.length ds <= int_max_str_digits)%nat ->
  score item = Ok (VInt (decimal ds)).
Proof.
  intros Hfind Hcls Hfirst Hpre Hne Hds Hlen.
  assert (Hskip : skipn 6 (prefix ++ ds) = ds).
  { rewrite <- Hpre, skipn_app, Nat.sub_diag, skipn_all. reflexivity. }
  unfold score, rbind. rewrite Hfind, Hcls, Hfirst.
  destruct (str_eqb (prefix ++ ds) (u "starsinfo")) eqn:Heq.
  - exfalso. apply str_eqb_eq in Heq. rewrite Heq in Hskip.
    rewrite <- Hskip in Hds. inversion Hds as [|c l [_ Hc] _]; subst.
    cbv in Hc. now apply Hc.
  - cbn [negb]. rewrite Hskip. now rewrite (py_int_digits ds Hne Hds Hlen).
Qed.

(** X10: An entry with a title but without a tag of class [starsinfo] is not
    parsed: [_bgmanime] raises [TypeError] before it sends the detail
    request. *)
Theorem bgmanime_unrated (w : World) (self : Self) (item : Node)
    (t : value) (h : list Event) :
  title item = Ok t ->
  find (u "starsinfo") item = None ->
  _bgmanime w self item h = (Raise TypeError, h).
Proof.
  intros Ht Hfind. unfold _bgmanime.
  rewrite (bind_lift_ok _ _ _ _ Ht).
  unfold score. rewrite Hfind. reflexivity.
Qed.

Lemma split_on_plain (sep : N) (s : pystr) :
  ~ In sep s -> split_on sep s = [s].
Proof.
  induction s as [|c s IH]; intros Hnot; cbn [split_on]; [reflexivity|].
  destruct (N.eqb c sep) eqn:Hc.
  - apply N.eqb_eq in Hc. subst. elim Hnot. now left.
  - rewrite IH; [reflexivity|]. intros Hin. apply Hnot. now right.
Qed.

Lemma split_on_tail (sep : N) (pre tail : pystr) :
  ~ In sep tail ->
  exists w ws, split_on sep (pre ++ sep :: tail) = (w :: ws) ++ [tail].
Proof.
  intros Hnot. induction pre as [|c pre (w & ws & IH)]; cbn [app split_on].
  - rewrite N.eqb_refl, (split_on_plain sep tail Hnot). now exists [], [].
  - cbn [app] in IH. rewrite IH. destruct (N.eqb c sep).
    + now exists [], (w :: ws).
    + now exists (c :: w), ws.
Qed.

Lemma last_snoc {A} (l : list A) (x : A) : last (l ++ [x]) = Ok x.
Proof.
  induction l as [|y l IH]; [reflexivity|].
  cbn [app last]. rewrite IH. now destruct (l ++ [x]) eqn:E;
    [destruct l; discriminate|].
Qed.

(** X11: The detail request of an entry is for the text after the last
    underscore of the entry's [id], and for the whole [id] when it has
    no underscore; it is sent whatever the provider answers, and it is
    the only request of [episodes]. *)
Theorem episodes_subject (w : World) (self : Self) (item : Node)
    (iid : pystr) (h : list Event) :
  attr_id item = Ok iid ->
  (forall pre tail,
      iid = pre ++ 95%N :: tail -> ~ In 95%N tail ->
      snd (episodes w self item h)
      = h ++ [Sent (GetSubjectSimple tail (_auth self))]) /\
  (~ In 95%N iid ->
   snd (episodes w self item h)
   = h ++ [Sent (GetSubjectSimple iid (_auth self))]).
Proof.
  intros Hid.
  assert (Hrun : forall sid,
             last (split_on 95 iid) = Ok sid ->
             snd (episodes w self item h)
             = h ++ [Sent (GetSubjectSimple sid (_auth self))]).
  { intros sid Hsid. unfold episodes.
    rewrite (bind_lift_ok _ _ _ _ Hid), (bind_lift_ok _ _ _ _ Hsid).
    destruct (json_request_cases w (GetSubjectSimple sid (_auth self))
                (fun data =>
                   eps <~ get_item data (u "eps") ;;
                   ep <~ (if negb (py_eq eps (VInt 0))
                          then get_item data (u "eps") else Ok (VInt 1)) ;;
                   rating <~ get_item data (u "rating") ;;
                   sc <~ get_item rating (u "score") ;;
                   i <~ get_item data (u "id") ;;
                   Ok (mkDetail ep ep sc i))%adapter h)
      as (res & Hres & _).
    now rewrite Hres. }
  split.
  - intros pre tail -> Hnot. apply Hrun.
    destruct (split_on_tail 95 pre tail Hnot) as (w0 & ws & ->).
    apply last_snoc.
  - intros Hnot. apply Hrun. now rewrite (split_on_plain 95 iid Hnot).
Qed.

(** *** The next-page test *)

Lemma last_cases {A} (l : list A) :
  (l = [] /\ last l = Raise IndexError) \/ (exists x, last l = Ok x).
Proof.
  induction l as [|x l [(-> & _) | (y & Hy)]].
  - left. auto.
  - right. now exists x.
  - right. exists y. cbn [last]. destruct l; [discriminate|exact Hy].
Qed.

(** X12: What [has_next_page] answers, case by case: [True] exactly when the
    last pagination control is labelled with the marker, [False]
    exactly when there is a last control with another label or none,
    [AttributeError] exactly when the page has no tag of class
    [page_inner], [IndexError] exactly when that tag has no control. *)
Theorem has_next_page_cases (doc : Node) :
  (has_next_page doc = Ok true <-> next_marker_present doc) /\
  (has_next_page doc = Ok false <-> next_marker_absent doc) /\
  (has_next_page doc = Raise AttributeError <->
   find (u "page_inner") doc = None) /\
  (has_next_page doc = Raise IndexError <->
   exists pages, find (u "page_inner") doc = Some pages /\
                 find_all None (u "p") pages = []).
Proof.
  assert (Hinv : forall b, has_next_page doc = Ok b ->
            exists c, last_control doc c /\
              b = match string_of c with
                  | Some s => str_eqb s next_marker
                  | None => false
                  end).
  { intros b H. unfold has_next_page in H.
    destruct (find (u "page_inner") doc) as [pages|] eqn:Hfind;
      [|discriminate].
    destruct (last (find_all None (u "p") pages)) as [c|] eqn:Hlast;
      [|discriminate].
    cbn [rbind] in H. injection H as <-.
    exists c. split; [|reflexivity]. now exists pages. }
  repeat split.
  - intros H. destruct (Hinv _ H) as (c & Hc & Hb). exists c.
    split; [exact Hc|].
    destruct (string_of c) as [s|]; [|discriminate].
    symmetry in Hb. apply str_eqb_eq in Hb. now subst.
  - apply has_next_page_present.
  - intros H. destruct (Hinv _ H) as (c & Hc & Hb). exists c.
    split; [exact Hc|].
    destruct (string_of c) as [s|]; [|discriminate].
    intros Hs. injection Hs as ->. now rewrite str_eqb_refl in Hb.
  - apply has_next_page_absent.
  - unfold has_next_page.
    destruct (find (u "page_inner") doc) as [pages|]; [|reflexivity].
    destruct (last_cases (find_all None (u "p") pages))
      as [(_ & ->) | (c & ->)]; discriminate.
  - intros H. unfold has_next_page. now rewrite H.
  - unfold has_next_page.
    destruct (find (u "page_inner") doc) as [pages|]; [|discriminate].
    destruct (last_cases (find_all None (u "p") pages))
      as [(Hnil & _) | (c & ->)]; [|discriminate].
    intros _. now exists pages.
  - intros (pages & Hfind & Hnil). unfold has_next_page.
    now rewrite Hfind, Hnil.
Qed.

(** *** The traffic of watched_list *)

Lemma sleeps_app (a b : list Event) :
  sleeps (a ++ b) = sleeps a ++ sleeps b.
Proof.
  induction a as [|[|] a IH]; simpl; auto. now rewrite IH.
Qed.

Lemma detail_requests_app (a b : list Event) :
  detail_requests (a ++ b) = detail_requests a ++ detail_requests b.
Proof.
  induction a as [|[[]|] a IH]; simpl; auto. now rewrite IH.
Qed.

(** A parsed item costs one request, to the detail endpoint. *)
Lemma bgmanime_ok_traffic (w : World) (self : Self) (item : Node)
    (h h' : list Event) (a : Api.AnimeItem) :
  _bgmanime w self item h = (Ok a, h') ->
  exists sid, h' = h ++ [Sent (GetSubjectSimple sid (_auth self))].
Proof.
  intros H. unfold _bgmanime in H.
  apply bind_lift_inv in H as (t & _ & H).
  apply bind_lift_inv in H as (us & _ & H).
  apply bind_inv in H as (d & h1 & Hd & H).
  unfold ret in H. injection H as _ <-.
  unfold episodes in Hd.
  apply bind_lift_inv in Hd as (iid & _ & Hd).
  apply bind_lift_inv in Hd as (sid & _ & Hd).
  apply run_request_inv in Hd as (data & _ & Hd).
  unfold lift in Hd. injection Hd as _ <-. now exists sid.
Qed.

Lemma append_items_ok_traffic (w : World) (self : Self)
    (items : list Node) :
  forall acc acc' h h',
    append_items w self items acc h = (Ok acc', h') ->
    exists evs,
      h' = h ++ evs /\ collect_pages evs = [] /\ sleeps evs = [] /\
      List.length (detail_requests evs) = List.length items /\
      List.length acc' = (List.length acc + List.length items)%nat.
Proof.
  induction items as [|item items IH]; intros acc acc' h h' H;
    cbn [append_items] in H.
  - unfold ret in H. injection H as <- <-. exists [].
    rewrite app_nil_r. cbn. auto.
  - apply bind_inv in H as (a & h1 & Ha & H).
    apply bgmanime_ok_traffic in Ha as (sid & ->).
    apply IH in H as (evs & -> & Hc & Hs & Hd & Hl).
    exists (Sent (GetSubjectSimple sid (_auth self)) :: evs).
    rewrite <- app_assoc. cbn [app collect_pages sleeps detail_requests
                                List.length].
    rewrite Hd, Hl, length_app. cbn [List.length].
    repeat split; auto; lia.
Qed.

Lemma pages_from (page : Z) (n : nat) :
  map (fun i => page + Z.of_nat i) (seq 0 (S n))
  = page :: map (fun i => page + 1 + Z.of_nat i) (seq 0 n).
Proof.
  change (seq 0 (S n)) with (0%nat :: seq 1 n). cbn [map].
  rewrite Z.add_0_r. f_equal.
  rewrite <- seq_shift, map_map. apply map_ext. intros i. lia.
Qed.

Lemma watched_loop_traffic (w : World) (self : Self) (fuel : nat) :
  forall page acc h h' items,
    watched_loop fuel w self page acc h = (Ok (Some items), h') ->
    exists evs n,
      h' = h ++ evs /\
      collect_pages evs = map (fun i => page + Z.of_nat i) (seq 0 (S n)) /\
      sleeps evs = repeat 1 n /\
      List.length items
      = (List.length acc + List.length (detail_requests evs))%nat.
Proof.
  induction fuel as [|fuel IH]; intros page acc h h' items H;
    cbn [watched_loop] in H.
  - discriminate.
  - apply bind_inv in H as (r & h1 & Hreq & H).
    assert (h1 = h ++ [Sent (GetCollect (_uid self) page)]) as ->.
    { unfold request in Hreq.
      destruct (w h (GetCollect (_uid self) page));
        now injection Hreq as _ <-. }
    apply bind_inv in H as ([] & h2 & Hst & H).
    assert (h2 = h ++ [Sent (GetCollect (_uid self) page)]) as ->.
    { unfold raise_for_status in Hst.
      destruct (is_error (status_code r));
        [discriminate|now injection Hst as <-]. }
    cbv zeta in H.
    apply bind_inv in H as (acc' & h3 & Happ & H).
    apply append_items_ok_traffic in Happ as (evs1 & -> & Hc1 & Hs1 & Hd1 & Hl1).
    apply bind_lift_inv in H as (more & _ & H).
    destruct more; cbn [negb] in H.
    + apply bind_inv in H as ([] & h4 & Hsl & H).
      unfold sleep in Hsl. injection Hsl as <-.
      apply IH in H as (evs2 & n & -> & Hc2 & Hs2 & Hl2).
      exists (Sent (GetCollect (_uid self) page) :: evs1
              ++ Slept 1 :: evs2), (S n).
      repeat split.
      * now rewrite <- !app_assoc.
      * cbn [collect_pages]. rewrite collect_pages_app, Hc1.
        cbn [collect_pages app]. rewrite Hc2.
        now rewrite (pages_from page (S n)).
      * cbn [sleeps]. rewrite sleeps_app, Hs1. cbn [sleeps app].
        now rewrite Hs2.
      * cbn [detail_requests]. rewrite detail_requests_app.
        cbn [detail_requests]. rewrite Hl2, Hl1, length_app, Hd1. lia.
    + unfold ret in H. injection H as <- <-.
      exists (Sent (GetCollect (_uid self) page) :: evs1), 0%nat.
      repeat split.
      * now rewrite <- app_assoc.
      * cbn [collect_pages]. now rewrite Hc1, (pages_from page 0).
      * cbn [sleeps]. now rewrite Hs1.
      * cbn [detail_requests]. rewrite Hl1, Hd1. lia.
Qed.

(** X13: Whenever [watched_list] returns a list, for some number n + 1 of
    pages: it asked for the pages 1, 2, ..., n + 1 of the listing, in
    this order and each once; it paused n times, one second each; and
    it sent as many detail requests as it returns items, one per
    item. *)
Theorem watched_list_traffic (w : World) (self : Self) (fuel : nat)
    (h h' : list Event) (items : list Api.AnimeItem) :
  watched_list fuel w self h = (Ok (Some items), h') ->
  exists evs n,
    h' = h ++ evs /\
    collect_pages evs = map Z.of_nat (seq 1 (S n)) /\
    sleeps evs = repeat 1 n /\
    List.length (detail_requests evs) = List.length items.
Proof.
  intros H. unfold watched_list in H.
  apply watched_loop_traffic in H as (evs & n & -> & Hc & Hs & Hl).
  exists evs, n. repeat split; auto.
  rewrite Hc, <- seq_shift, map_map. apply map_ext. intros i. lia.
Qed.

(** *** Leaving the loop of watched_list other than by its break *)

Section Turns.

Variables (w : World) (self : Self).
Variable parsed : Node -> Api.AnimeItem.
Variable page : nat -> Node.

(** [n] turns over pages that end with the marker lead to the turn of
    page [p + n], with the items of these pages collected. *)
Lemma watched_loop_prefix (J : nat) :
  pages_before w self parsed page J ->
  forall n p fuel acc h,
    (1 <= p)%nat -> (p + n <= J)%nat ->
    exists evs,
      watched_loop (n + fuel) w self (Z.of_nat p) acc h
      = watched_loop fuel w self (Z.of_nat (p + n))
                     (acc ++ items_of parsed page p n) (h ++ evs) /\
      collect_pages evs = map Z.of_nat (seq p n).
Proof.
  intros Hgood. induction n as [|n IH]; intros p fuel acc h Hp HJ.
  - exists []. unfold items_of. cbn [seq flat_map map Nat.add].
    now rewrite Nat.add_0_r, !app_nil_r.
  - destruct (Hgood p ltac:(lia)) as (Hserved & Hmarked & Hparses).
    destruct (append_items_run w self parsed (entries (page p))
                (fun h' it Hin => Hparses h' it Hin) acc
                (h ++ [Sent (GetCollect (_uid self) (Z.of_nat p))]))
      as (evs1 & Happ & Hnone).
    cbn [Nat.add].
    rewrite (watched_loop_step w self (n + fuel) _ (page p) acc _ h _ true
               (Hserved h) Happ (has_next_page_present _ Hmarked)).
    replace (Z.of_nat p + 1) with (Z.of_nat (S p)) by lia.
    destruct (IH (S p) fuel (acc ++ map parsed (entries (page p)))
                 (((h ++ [Sent (GetCollect (_uid self) (Z.of_nat p))])
                   ++ evs1) ++ [Slept 1])
                 ltac:(lia) ltac:(lia))
      as (evs2 & Hloop & Hpages).
    rewrite Hloop.
    exists (Sent (GetCollect (_uid self) (Z.of_nat p)) :: evs1
            ++ Slept 1 :: evs2).
    split.
    + unfold items_of. cbn [seq flat_map].
      rewrite <- !app_assoc. cbn [app].
      now replace (S p + n)%nat with (p + S n)%nat by lia.
    + cbn [collect_pages]. rewrite collect_pages_app, Hnone.
      cbn [collect_pages app seq map]. now rewrite Hpages.
Qed.

Lemma append_items_failure (pre post : list Node) (bad : Node) (e : exn) :
  (forall h item,
      In item pre -> fst (_bgmanime w self item h) = Ok (parsed item)) ->
  (forall h, fst (_bgmanime w self bad h) = Raise e) ->
  forall acc h,
  exists evs,
    append_items w self (pre ++ bad :: post) acc h = (Raise e, h ++ evs) /\
    collect_pages evs = [].
Proof.
  intros Hpre Hbad.
  induction pre as [|item pre IH]; intros acc h; cbn [app append_items].
  - destruct (bgmanime_log w self bad h) as (evs & Hlog & Hnone).
    specialize (Hbad h).
    destruct (_bgmanime w self bad h) as [res h1] eqn:Hrun.
    cbn [fst snd] in Hlog, Hbad. subst res h1.
    unfold bind. rewrite Hrun. now exists evs.
  - destruct (bgmanime_log w self item h) as (evs1 & Hlog & Hnone).
    pose proof (Hpre h item (or_introl eq_refl)) as Hitem.
    destruct (_bgmanime w self item h) as [res h1] eqn:Hrun.
    cbn [fst snd] in Hlog, Hitem. subst res h1.
    rewrite (bind_ok _ _ _ _ _ Hrun).
    destruct (IH (fun h' it Hin => Hpre h' it (or_intror Hin))
                 (acc ++ [parsed item]) (h ++ evs1))
      as (evs2 & Hrest & Hnone2).
    exists (evs1 ++ evs2). rewrite Hrest, <- app_assoc. split; auto.
    now rewrite collect_pages_app, Hnone, Hnone2.
Qed.

(** A turn that fails while the entries are parsed, or at the next-page
    test. *)
Lemma watched_loop_step_raise (fuel : nat) (pg : Z) (doc : Node)
    (acc : list Api.AnimeItem) (h h' : list Event) (e : exn) :
  serves w h (GetCollect (_uid self) pg) doc ->
  append_items w self (entries doc) acc
               (h ++ [Sent (GetCollect (_uid self) pg)])
  = (Raise e, h')
  \/ (exists acc',
        append_items w self (entries doc) acc
                     (h ++ [Sent (GetCollect (_uid self) pg)])
        = (Ok acc', h') /\
        has_next_page doc = Raise e) ->
  watched_loop (S fuel) w self pg acc h = (Raise e, h').
Proof.
  intros (r & Hw & He & Hdoc) Hfail. cbn [watched_loop].
  assert (Hreq : request w (GetCollect (_uid self) pg) h
                 = (Ok r, h ++ [Sent (GetCollect (_uid self) pg)])).
  { unfold request. now rewrite Hw. }
  rewrite (bind_ok _ _ _ _ _ Hreq).
  assert (Hst : raise_for_status r
                  (h ++ [Sent (GetCollect (_uid self) pg)])
                = (Ok tt, h ++ [Sent (GetCollect (_uid self) pg)])).
  { unfold raise_for_status. now rewrite He. }
  rewrite (bind_ok _ _ _ _ _ Hst). cbv zeta. rewrite Hdoc.
  fold (entries doc).
  destruct Hfail as [Happ | (acc' & Happ & Hnext)].
  - unfold bind at 1. now rewrite Happ.
  - rewrite (bind_ok _ _ _ _ _ Happ). unfold bind, lift.
    now rewrite Hnext.
Qed.

End Turns.

(** The turns that reach page [J] from page 1. *)
Lemma watched_list_reaches (w : World) (self : Self)
    (parsed : Node -> Api.AnimeItem) (page : nat -> Node) (J fuel : nat)
    (h : list Event) :
  (1 <= J)%nat -> (J <= fuel)%nat ->
  pages_before w self parsed page J ->
  exists evs rest,
    watched_list fuel w self h
    = watched_loop (S rest) w self (Z.of_nat J)
                   (items_of parsed page 1 (J - 1)) (h ++ evs) /\
    collect_pages evs = map Z.of_nat (seq 1 (J - 1)).
Proof.
  intros HJ Hfuel Hgood.
  destruct (watched_loop_prefix w self parsed page J Hgood (J - 1) 1%nat
              (S (fuel - J)) [] h ltac:(lia) ltac:(lia))
    as (evs & Hrun & Hpages).
  exists evs, (fuel - J)%nat. split; [|exact Hpages].
  cbn [app] in Hrun. replace (1 + (J - 1))%nat with J in Hrun by lia.
  replace (J - 1 + S (fuel - J))%nat with fuel in Hrun by lia.
  exact Hrun.
Qed.

Lemma pages_to (J : nat) :
  (1 <= J)%nat ->
  map Z.of_nat (seq 1 (J - 1)) ++ [Z.of_nat J] = map Z.of_nat (seq 1 J).
Proof.
  intros HJ. replace J with (J - 1 + 1)%nat at 3 by lia.
  rewrite seq_app, map_app. cbn [seq map]. repeat f_equal. lia.
Qed.

(** X14: A transport failure in the middle of the listing: when the pages
    before page J are served with the marker and parse, and page J is
    answered with an error status, [watched_list] raises [HTTPError]
    after asking for the pages 1 to J; the items of the pages before J
    are not returned. *)
Theorem watched_list_http_error (w : World) (self : Self)
    (parsed : Node -> Api.AnimeItem) (page : nat -> Node) (J : nat) :
  (1 <= J)%nat ->
  pages_before w self parsed page J ->
  (forall h, exists r,
      w h (GetCollect (_uid self) (Z.of_nat J)) = Got r /\
      is_error (status_code r) = true) ->
  forall fuel h,
    (J <= fuel)%nat ->
    exists evs,
      watched_list fuel w self h = (Raise HTTPError, h ++ evs) /\
      collect_pages evs = map Z.of_nat (seq 1 J).
Proof.
  intros HJ Hgood Hbad fuel h Hfuel.
  destruct (watched_list_reaches w self parsed page J fuel h HJ Hfuel Hgood)
    as (evs & rest & -> & Hpages).
  destruct (Hbad (h ++ evs)) as (r & Hw & He).
  exists (evs ++ [Sent (GetCollect (_uid self) (Z.of_nat J))]). split.
  - cbn [watched_loop]. unfold bind, request. rewrite Hw.
    unfold raise_for_status. rewrite He. unfold raise.
    now rewrite app_assoc.
  - rewrite collect_pages_app, Hpages. cbn [collect_pages].
    now apply pages_to.
Qed.

(** X15: One entry that does not parse loses the whole listing: when the
    pages before page J are served with the marker and parse, and on
    page J an entry raises after entries that parse, [watched_list]
    raises that exception after asking for the pages 1 to J. *)
Theorem watched_list_entry_failure (w : World) (self : Self)
    (parsed : Node -> Api.AnimeItem) (page : nat -> Node) (J : nat)
    (pre post : list Node) (bad : Node) (e : exn) :
  (1 <= J)%nat ->
  pages_before w self parsed page J ->
  (forall h,
      serves w h (GetCollect (_uid self) (Z.of_nat J)) (page J)) ->
  entries (page J) = pre ++ bad :: post ->
  (forall h item,
      In item pre -> fst (_bgmanime w self item h) = Ok (parsed item)) ->
  (forall h, fst (_bgmanime w self bad h) = Raise e) ->
  forall fuel h,
    (J <= fuel)%nat ->
    exists evs,
      watched_list fuel w self h = (Raise e, h ++ evs) /\
      collect_pages evs = map Z.of_nat (seq 1 J).
Proof.
  intros HJ Hgood Hserved Hentries Hpre Hbad fuel h Hfuel.
  destruct (watched_list_reaches w self parsed page J fuel h HJ Hfuel Hgood)
    as (evs & rest & -> & Hpages).
  destruct (append_items_failure w self parsed pre post bad e Hpre Hbad
              (items_of parsed page 1 (J - 1))
              ((h ++ evs) ++ [Sent (GetCollect (_uid self) (Z.of_nat J))]))
    as (evs1 & Happ & Hnone).
  rewrite <- Hentries in Happ.
  exists (evs ++ Sent (GetCollect (_uid self) (Z.of_nat J)) :: evs1).
  split.
  - rewrite (watched_loop_step_raise w self rest _ (page J) _ (h ++ evs) _ e
               (Hserved _) (or_introl Happ)).
    now rewrite <- !app_assoc.
  - rewrite collect_pages_app, Hpages. cbn [collect_pages].
    rewrite Hnone. now apply pages_to.
Qed.

(** X16: A page without a pagination block ends the listing with an
    exception: when the pages before page J are served with the marker
    and parse, and page J is served, parses, and has no tag of class
    [page_inner], [watched_list] raises [AttributeError] after asking
    for the pages 1 to J and parsing page J. *)
Theorem watched_list_no_pagination (w : World) (self : Self)
    (parsed : Node -> Api.AnimeItem) (page : nat -> Node) (J : nat) :
  (1 <= J)%nat ->
  pages_before w self parsed page J ->
  (forall h,
      serves w h (GetCollect (_uid self) (Z.of_nat J)) (page J)) ->
  (forall h item,
      In item (entries (page J)) ->
      fst (_bgmanime w self item h) = Ok (parsed item)) ->
  find (u "page_inner") (page J) = None ->
  forall fuel h,
    (J <= fuel)%nat ->
    exists evs,
      watched_list fuel w self h = (Raise AttributeError, h ++ evs) /\
      collect_pages evs = map Z.of_nat (seq 1 J) /\
      (List.length (entries (page J))
       <= List.length (detail_requests evs))%nat.
Proof.
  intros HJ Hgood Hserved Hparses Hfind fuel h Hfuel.
  destruct (watched_list_reaches w self parsed page J fuel h HJ Hfuel Hgood)
    as (evs & rest & -> & Hpages).
  destruct (append_items_run w self parsed (entries (page J)) Hparses
              (items_of parsed page 1 (J - 1))
              ((h ++ evs) ++ [Sent (GetCollect (_uid self) (Z.of_nat J))]))
    as (evs1 & Happ & Hnone).
  exists (evs ++ Sent (GetCollect (_uid self) (Z.of_nat J)) :: evs1).
  assert (Hnext : has_next_page (page J) = Raise AttributeError).
  { unfold has_next_page. now rewrite Hfind. }
  repeat split.
  - rewrite (watched_loop_step_raise w self rest _ (page J) _ (h ++ evs) _
               AttributeError (Hserved _)
               (or_intror (ex_intro _ _ (conj Happ Hnext)))).
    now rewrite <- !app_assoc.
  - rewrite collect_pages_app, Hpages. cbn [collect_pages].
    rewrite Hnone. now apply pages_to.
  - apply append_items_ok_traffic in Happ as (evs' & Heq & _ & _ & Hd & _).
    apply app_inv_head in Heq. subst evs'.
    rewrite detail_requests_app, length_app. cbn [detail_requests].
    rewrite Hd. lia.
Qed.

(** X17: The loop has no bound of its own: when every page is served with
    the marker and parses, no number of turns reaches the [break]; after
    [fuel] turns the adapter has asked for the pages 1 to [fuel] and is
    about to ask for the next one. *)
Theorem watched_list_endless (w : World) (self : Self)
    (parsed : Node -> Api.AnimeItem) (page : nat -> Node) :
  (forall J, pages_before w self parsed page J) ->
  forall fuel h,
    exists evs,
      watched_list fuel w self h = (Ok None, h ++ evs) /\
      collect_pages evs = map Z.of_nat (seq 1 fuel).
Proof.
  intros Hgood fuel h.
  destruct (watched_loop_prefix w self parsed page (S fuel)
              (Hgood (S fuel)) fuel 1%nat 0%nat [] h ltac:(lia) ltac:(lia))
    as (evs & Hrun & Hpages).
  exists evs. split; [|exact Hpages].
  rewrite Nat.add_0_r in Hrun. exact Hrun.
Qed.

(** *** What increment_status can mark *)

Lemma insert_perm (x : value) (l r : list value) :
  insert x l = Ok r -> Permutation (x :: l) r.
Proof.
  revert r. induction l as [|y l IH]; cbn [insert]; intros r H.
  - now injection H as <-.
  - destruct (py_lt x y) as [[|]|]; cbn [rbind] in H; try discriminate.
    + now injection H as <-.
    + destruct (insert x l) as [r'|]; [|discriminate].
      cbn [rbind] in H. injection H as <-.
      rewrite perm_swap. constructor. now apply IH.
Qed.

Lemma sort_from_perm (l acc s : list value) :
  fold_left (fun r x => rbind r (insert x)) l (Ok acc) = Ok s ->
  Permutation (acc ++ l) s.
Proof.
  revert acc. induction l as [|x l IH]; intros acc H; cbn [fold_left] in H.
  - injection H as <-. now rewrite app_nil_r.
  - cbn [rbind] in H. destruct (insert x acc) as [acc'|] eqn:Hins.
    + rewrite <- (IH acc' H), <- (insert_perm x acc acc' Hins).
      symmetry. apply Permutation_middle.
    + exfalso. clear -H. induction l as [|y l IHl]; [discriminate|].
      now apply IHl.
Qed.

(** Sorting keeps the ids: the sorted list is a rearrangement. *)
Lemma py_sort_perm (l s : list value) :
  py_sort l = Ok s -> Permutation l s.
Proof. intros H. exact (sort_from_perm l [] s H). Qed.

Lemma mark_traffic (w : World) (self : Self) (x : value)
    (h : list Event) :
  exists res,
    (r <- request w (PostWatched x (_auth self)) ;;
     raise_for_status r ;;;
     result <- json r ;;
     code <- lift (get_item result (u "code")) ;;
     ret (py_eq code (VInt 200)))%adapter h
    = (res, h ++ [Sent (PostWatched x (_auth self))]).
Proof.
  unfold bind, request, raise_for_status, json, lift, ret, raise.
  destruct (w h (PostWatched x (_auth self))) as [|r];
    [now eexists|].
  destruct (is_error (status_code r)); [now eexists|].
  destruct (json_body r) as [body|]; [|now eexists].
  destruct (get_item body (u "code")); now eexists.
Qed.

(** X18: Whatever the provider answers, [increment_status] sends at most one
    mutation request, as its last request, and only for an id that the
    provider listed among the episodes of the anime and did not list
    among the watched ones; and it returns [True] only after such a
    request. *)
Theorem increment_status_safe (w : World) (self : Self)
    (anime_item : Api.AnimeItem) (h : list Event) :
  exists evs,
    snd (increment_status w self anime_item h) = h ++ evs /\
    (mutations evs = [] \/
     exists x seen full watched all_episodes before,
       evs = before ++ [Sent (PostWatched x (_auth self))] /\
       mutations before = [] /\
       answers w h (progress_request self anime_item) seen /\
       episode_ids seen = Ok watched /\
       answers w (h ++ [Sent (progress_request self anime_item)])
               (subject_request anime_item) full /\
       episode_ids full = Ok all_episodes /\
       In x all_episodes /\ py_mem x watched = false) /\
    (fst (increment_status w self anime_item h) = Ok true ->
     mutations evs <> []).
Proof.
  enough (Hmain : exists res evs,
    increment_status w self anime_item h = (res, h ++ evs) /\
    (mutations evs = [] \/
     exists x seen full watched all_episodes before,
       evs = before ++ [Sent (PostWatched x (_auth self))] /\
       mutations before = [] /\
       answers w h (progress_request self anime_item) seen /\
       episode_ids seen = Ok watched /\
       answers w (h ++ [Sent (progress_request self anime_item)])
               (subject_request anime_item) full /\
       episode_ids full = Ok all_episodes /\
       In x all_episodes /\ py_mem x watched = false) /\
    (res = Ok true -> mutations evs <> [])).
  { destruct Hmain as (res & evs & -> & H1 & H2). now exists evs. }
  destruct (json_request_cases w (progress_request self anime_item)
              episode_ids h) as (res1 & Hrun1 & Hok1 & _).
  destruct (json_request_cases w (subject_request anime_item)
              episode_ids (h ++ [Sent (progress_request self anime_item)]))
    as (res2 & Hrun2 & Hok2 & _).
  change (get_watched_episodes w self (Api.id anime_item) h
          = (res1, h ++ [Sent (progress_request self anime_item)]))
    in Hrun1.
  change (get_all_episodes w (Api.id anime_item)
            (h ++ [Sent (progress_request self anime_item)])
          = (res2, (h ++ [Sent (progress_request self anime_item)])
                   ++ [Sent (subject_request anime_item)]))
    in Hrun2.
  rewrite <- app_assoc in Hrun2. cbn [app] in Hrun2.
  unfold increment_status, bind at 1. rewrite Hrun1.
  destruct res1 as [watched|e1].
  2:{ exists (Raise e1), [Sent (progress_request self anime_item)].
      split; [reflexivity|]. split; [now left|discriminate]. }
  unfold bind at 1. rewrite Hrun2.
  destruct res2 as [all_episodes|e2].
  2:{ exists (Raise e2), [Sent (progress_request self anime_item);
                          Sent (subject_request anime_item)].
      split; [reflexivity|]. split; [now left|discriminate]. }
  unfold bind at 1, lift at 1.
  destruct (py_sort all_episodes) as [sorted|e3] eqn:Hsort.
  2:{ exists (Raise e3), [Sent (progress_request self anime_item);
                          Sent (subject_request anime_item)].
      split; [reflexivity|]. split; [now left|discriminate]. }
  destruct (Hok1 watched eq_refl) as (seen & Hseen & Hws).
  destruct (Hok2 all_episodes eq_refl) as (full & Hfull & Hall).
  assert (Hsel : forall x,
             next_unwatched watched sorted = x -> x <> VNone ->
             In x all_episodes /\ py_mem x watched = false).
  { intros x Hx Hne. unfold next_unwatched in Hx.
    destruct (List.find (fun y => negb (py_mem y watched)) sorted)
      as [y|] eqn:Hfind; [|congruence].
    subst y. apply find_some in Hfind as [Hin Hnot]. split.
    - apply (Permutation_in _ (Permutation_sym (py_sort_perm _ _ Hsort))).
      exact Hin.
    - now apply negb_true_iff in Hnot. }
  destruct (next_unwatched watched sorted) as [| | | | | |] eqn:Hnext.
  1:{ exists (Ok false), [Sent (progress_request self anime_item);
                          Sent (subject_request anime_item)].
      split; [reflexivity|]. split; [now left|discriminate]. }
  all: match goal with
       | |- context [PostWatched ?x _] =>
           destruct (mark_traffic w self x
                       (h ++ [Sent (progress_request self anime_item);
                              Sent (subject_request anime_item)]))
             as (res & Hmark);
           rewrite Hmark;
           destruct (Hsel x eq_refl ltac:(discriminate)) as [Hin Hnot];
           exists res,
                  ([Sent (progress_request self anime_item);
                    Sent (subject_request anime_item)]
                   ++ [Sent (PostWatched x (_auth self))]);
           split; [now rewrite <- app_assoc|];
           split; [right; exists x, seen, full, watched, all_episodes,
                     [Sent (progress_request self anime_item);
                      Sent (subject_request anime_item)];
                   repeat split; auto
                  |intros _; discriminate]
       end.
Qed.

(** *** Answers of an unexpected shape *)

(** X5: An answer to the watching request that is not a list: [watching_list]
    returns the empty list for an empty object and for an empty string,
    which have nothing to iterate over, and raises [TypeError] for every
    other document, [null] included. *)
Theorem watching_list_not_a_list (w : World) (self : Self)
    (h : list Event) (data : value) :
  answers w h (GetWatching (_uid self)) data ->
  (forall l, data <> VList l) ->
  watching_list w self h
  = (match data with
     | VDict [] | VStr [] => Ok []
     | _ => Raise TypeError
     end,
     h ++ [Sent (GetWatching (_uid self))]).
Proof.
  intros Ha Hnot. unfold watching_list.
  rewrite (run_request_then w h _ data _ Ha). unfold lift. f_equal.
  destruct data as [| | | |[|c s]|l|[|[k v] d]]; try reflexivity.
  now elim (Hnot l).
Qed.

(** X8: The candidates are examined in order and the first one decides: a
    candidate whose [type] cannot be read, after candidates of other
    types, makes [search] raise, whatever follows it, an anime
    included. *)
Theorem search_stops_at_failure (w : World) (self : Self)
    (ttl body raws bad : value) (pre post : list value) (e : exn)
    (h : list Event) :
  answers w h (GetSearch ttl search_params) body ->
  get_item body (u "list") = Ok raws ->
  py_iter raws = Ok (pre ++ bad :: post) ->
  Forall not_anime pre ->
  get_item bad (u "type") = Raise e ->
  search w self ttl h
  = (Raise e, h ++ [Sent (GetSearch ttl search_params)]).
Proof.
  intros Ha Hlist Hiter Hpre Hbad.
  pose proof (get_raw_result_run w ttl body h Ha) as Hraw.
  rewrite Hlist in Hraw.
  unfold search. rewrite (bind_ok _ _ _ _ _ Hraw).
  rewrite (bind_lift_ok _ _ _ _ Hiter).
  unfold bind, lift. rewrite (next_anime_skips pre _ Hpre).
  cbn [next_anime]. now rewrite Hbad.
Qed.

(** *** Where the items of watched_list come from *)

Lemma append_items_sound (w : World) (self : Self) (items : list Node) :
  forall acc acc' h h',
    append_items w self items acc h = (Ok acc', h') ->
    exists l, acc' = acc ++ l /\ Forall2 (parse_of w self) items l.
Proof.
  induction items as [|item items IH]; intros acc acc' h h' H;
    cbn [append_items] in H.
  - unfold ret in H. injection H as <- _. exists [].
    now rewrite app_nil_r.
  - apply bind_inv in H as (a & h1 & Ha & H).
    apply IH in H as (l & -> & Hl).
    exists (a :: l). rewrite <- app_assoc. split; [reflexivity|].
    constructor; [now exists h, h1|exact Hl].
Qed.

Lemma has_next_page_inv (doc : Node) (b : bool) :
  has_next_page doc = Ok b ->
  if b then next_marker_present doc else next_marker_absent doc.
Proof.
  intros H. unfold has_next_page in H.
  destruct (find (u "page_inner") doc) as [pages|] eqn:Hfind;
    [|discriminate].
  destruct (last (find_all None (u "p") pages)) as [c|] eqn:Hlast;
    [|discriminate].
  cbn [rbind] in H. injection H as <-.
  assert (Hc : last_control doc c) by now exists pages.
  destruct (string_of c) as [s|] eqn:Hs.
  - destruct (str_eqb s next_marker) eqn:Heq.
    + apply str_eqb_eq in Heq. subst. now exists c.
    + exists c. split; [exact Hc|]. rewrite Hs. intros E. injection E as ->.
      now rewrite str_eqb_refl in Heq.
  - exists c. split; [exact Hc|]. now rewrite Hs.
Qed.

Lemma watched_loop_sound (w : World) (self : Self) (fuel : nat) :
  forall pg acc h h' items,
    watched_loop fuel w self pg acc h = (Ok (Some items), h') ->
    exists docs final l,
      items = acc ++ l /\
      Forall2 (parse_of w self) (flat_map entries (docs ++ [final])) l /\
      Forall next_marker_present docs /\ next_marker_absent final /\
      Forall (served_page w self) (docs ++ [final]).
Proof.
  induction fuel as [|fuel IH]; intros pg acc h h' items H;
    cbn [watched_loop] in H.
  - discriminate.
  - apply bind_inv in H as (r & h1 & Hreq & H).
    apply bind_inv in H as ([] & h2 & Hst & H). cbv zeta in H.
    assert (Hserved : served_page w self (soup r)).
    { exists h, pg, r. unfold request in Hreq.
      destruct (w h (GetCollect (_uid self) pg)) as [|r'];
        [discriminate|].
      injection Hreq as -> _. unfold raise_for_status in Hst.
      destruct (is_error (status_code r)); [discriminate|]. auto. }
    apply bind_inv in H as (acc' & h3 & Happ & H).
    apply append_items_sound in Happ as (l1 & -> & Hl1).
    apply bind_lift_inv in H as (more & Hmore & H).
    apply has_next_page_inv in Hmore.
    destruct more; cbn [negb] in H.
    + apply bind_inv in H as ([] & h4 & _ & H).
      apply IH in H as (docs & final & l2 & -> & Hl2 & Hdocs & Hfinal & Hs).
      exists (soup r :: docs), final, (l1 ++ l2).
      rewrite <- app_assoc. split; [reflexivity|].
      cbn [app flat_map]. split; [now apply Forall2_app|].
      split; [now constructor|]. split; [exact Hfinal|now constructor].
    + unfold ret in H. injection H as <- _.
      exists [], (soup r), l1. split; [reflexivity|].
      cbn [app flat_map]. rewrite app_nil_r. split; [exact Hl1|].
      split; [constructor|]. split; [exact Hmore|].
      constructor; [exact Hserved|constructor].
Qed.

(** X19: [watched_list] returns nothing but parsed entries: whenever it
    returns a list, the provider served pages of which all but the last
    end with the next-page marker and the last does not, and the list
    is, in page order and then in the order of the entries on a page,
    what [_bgmanime] made of each entry of these pages: no entry is
    skipped, none is returned twice, and no page after the first one
    without marker is read. *)
Theorem watched_list_sound (w : World) (self : Self) (fuel : nat)
    (h h' : list Event) (items : list Api.AnimeItem) :
  watched_list fuel w self h = (Ok (Some items), h') ->
  exists docs final,
    Forall2 (parse_of w self) (flat_map entries (docs ++ [final])) items /\
    Forall next_marker_present docs /\ next_marker_absent final /\
    Forall (served_page w self) (docs ++ [final]).
Proof.
  intros H. unfold watched_list in H.
  apply watched_loop_sound in H as (docs & final & l & -> & Hl & Hrest).
  now exists docs, final.
Qed.

(* ================================================================== *)
(** ** The further properties on the concrete providers *)
(* ================================================================== *)

(** The provider returns both fields: the session holds them. *)
Lemma init_success_iff_witness :
  __init__ (Scenario.auth_answer (Scenario.json_resp Scenario.credentials))
           (VStr (u "a@b.c")) (VStr (u "secret")) []
  = (Ok Scenario.self,
     [Sent (PostAuth (VStr (u "a@b.c")) (VStr (u "secret")))]).
Proof.
  apply (proj2 (init_success_iff
                  (Scenario.auth_answer
                     (Scenario.json_resp Scenario.credentials))
                  (VStr (u "a@b.c")) (VStr (u "secret")) []
                  [Sent (PostAuth (VStr (u "a@b.c")) (VStr (u "secret")))]
                  Scenario.self)).
  exists Scenario.credentials.
  split; [answered|]. repeat split.
Defined.

(** Two records, the second with [eps]: 13 and 26 episodes. *)
Lemma watching_list_records_witness :
  watching_list (Scenario.watching_of Scenario.two_records) Scenario.self []
  = (Ok [Api.mkAnimeItem (VStr (u "Y")) VNone VNone (VInt 13) (VInt 3)
                         (VInt 9);
         Api.mkAnimeItem (VStr (u "V")) VNone VNone (VInt 26) (VInt 0)
                         (VInt 10)],
     [Sent (GetWatching (_uid Scenario.self))]).
Proof.
  refine (watching_list_records
            (Scenario.watching_of Scenario.two_records) Scenario.self []
            _ _ _ _).
  - answered.
  - constructor; [|constructor; [|constructor]].
    + exists (VInt 3),
             [(u "id", VInt 9); (u "name", VStr (u "Y"))],
             (VInt 9), (VStr (u "Y")).
      repeat split.
    + exists (VInt 0),
             [(u "id", VInt 10); (u "name", VStr (u "V"));
              (u "eps", VInt 26)],
             (VInt 10), (VStr (u "V")).
      repeat split.
Defined.

(** The second record has no [ep_status]: [KeyError], no item. *)
Lemma watching_list_all_or_nothing_witness :
  watching_list (Scenario.watching_of Scenario.damaged_records)
                Scenario.self []
  = (Raise KeyError, [Sent (GetWatching (_uid Scenario.self))]).
Proof.
  refine (watching_list_all_or_nothing
            (Scenario.watching_of Scenario.damaged_records) Scenario.self []
            [VDict [(u "ep_status", VInt 3);
                    (u "subject", VDict [(u "id", VInt 9);
                                         (u "name", VStr (u "Y"))])]]
            [VInt 0]
            (VDict [(u "subject", VDict [(u "id", VInt 10);
                                         (u "name", VStr (u "V"))])])
            KeyError _ _ _).
  - answered.
  - constructor; [|constructor]. eexists. reflexivity.
  - reflexivity.
Defined.

(** What the search for X returned is the series, after the book. *)
Lemma search_sound_witness :
  exists body raws pre d post ty rating,
    answers (Scenario.found [Scenario.book; Scenario.series]) []
            (GetSearch (VStr (u "X")) search_params) body /\
    get_item body (u "list") = Ok raws /\
    py_iter raws = Ok (pre ++ VDict d :: post) /\
    Forall not_anime pre /\
    lookup (u "type") d = Some ty /\ py_eq ty (VInt 2) = true /\
    lookup (u "name") d = Some (Api.title Scenario.series_item) /\
    lookup (u "rating") d = Some rating /\
    get_item rating (u "score") = Ok (Api.score Scenario.series_item) /\
    lookup (u "id") d = Some (Api.id Scenario.series_item) /\
    Api.episode Scenario.series_item
    = match lookup (u "eps") d with
      | Some e => e
      | None => VInt 1
      end /\
    Api.userscore Scenario.series_item = VNone /\
    Api.status Scenario.series_item = VNone.
Proof.
  apply (search_sound (Scenario.found [Scenario.book; Scenario.series])
           Scenario.self (VStr (u "X")) []
           [Sent (GetSearch (VStr (u "X")) search_params)]
           Scenario.series_item).
  reflexivity.
Defined.

(** [sstars10] first: the score is 10. *)
Lemma score_primary_witness :
  score (Scenario.entry "12" "Y" [u "sstars10"; u "starsinfo"])
  = Ok (VInt 10).
Proof.
  apply (score_primary
           (Scenario.entry "12" "Y" [u "sstars10"; u "starsinfo"])
           (Tag (u "span") (Some [u "sstars10"; u "starsinfo"]) None [])
           [u "sstars10"; u "starsinfo"] (u "sstars") (u "10")).
  - reflexivity.
  - reflexivity.
  - reflexivity.
  - reflexivity.
  - discriminate.
  - repeat constructor; unfold is_digit; simpl; lia.
  - unfold int_max_str_digits. simpl. lia.
Defined.

(** The entry without a score marker: nothing is sent. *)
Lemma bgmanime_unrated_witness :
  _bgmanime Scenario.two_pages Scenario.self Scenario.unrated []
  = (Raise TypeError, []).
Proof.
  apply (bgmanime_unrated Scenario.two_pages Scenario.self Scenario.unrated
           (VStr (u "W")) []).
  - reflexivity.
  - reflexivity.
Defined.

(** The entry [item_12]: the detail of subject 12 is asked for. *)
Lemma episodes_subject_witness :
  snd (episodes Scenario.two_pages Scenario.self
                (Scenario.entry "12" "Y" [u "sstars9"; u "starsinfo"]) [])
  = [] ++ [Sent (GetSubjectSimple (u "12") (_auth Scenario.self))].
Proof.
  refine (proj1 (episodes_subject Scenario.two_pages Scenario.self
                   (Scenario.entry "12" "Y" [u "sstars9"; u "starsinfo"])
                   (u "item_12") [] _)
                (u "item") (u "12") _ _).
  - reflexivity.
  - reflexivity.
  - intros [H | [H | []]]; discriminate H.
Defined.

(** Two pages, one pause, two details for two items. *)
Lemma watched_list_traffic_witness :
  exists evs n,
    snd (watched_list 5 Scenario.two_pages Scenario.self []) = [] ++ evs /\
    collect_pages evs = map Z.of_nat (seq 1 (S n)) /\
    sleeps evs = repeat 1 n /\
    List.length (detail_requests evs)
    = List.length [Scenario.parsed
                     (Scenario.entry "12" "Y" [u "sstars9"; u "starsinfo"]);
                   Scenario.parsed
                     (Scenario.entry "34" "Z" [u "starsinfo"; u "sstars7"])].
Proof.
  apply (watched_list_traffic Scenario.two_pages Scenario.self 5 []).
  reflexivity.
Defined.

(** Page 2 is answered with 503: [HTTPError] after pages 1 and 2. *)
Lemma watched_list_http_error_witness :
  exists evs,
    watched_list 5 Scenario.broken_second Scenario.self []
    = (Raise HTTPError, [] ++ evs) /\
    collect_pages evs = map Z.of_nat (seq 1 2).
Proof.
  apply (watched_list_http_error Scenario.broken_second Scenario.self
           Scenario.parsed Scenario.page 2).
  - lia.
  - first_page_good.
  - intros h. eexists. split; reflexivity.
  - lia.
Defined.

(** Page 2 has an entry without a score marker: [TypeError]. *)
Lemma watched_list_entry_failure_witness :
  exists evs,
    watched_list 5 Scenario.unrated_second Scenario.self []
    = (Raise TypeError, [] ++ evs) /\
    collect_pages evs = map Z.of_nat (seq 1 2).
Proof.
  apply (watched_list_entry_failure Scenario.unrated_second Scenario.self
           Scenario.parsed
           (fun p => if Nat.eqb p 1 then Scenario.page_1
                     else Scenario.page_unrated)
           2
           [Scenario.entry "34" "Z" [u "starsinfo"; u "sstars7"]]
           [Scenario.entry "12" "Y" [u "sstars9"; u "starsinfo"]]
           Scenario.unrated TypeError).
  - lia.
  - first_page_good.
  - intros h. answered.
  - reflexivity.
  - intros h item [<- | []]. reflexivity.
  - intros h. reflexivity.
  - lia.
Defined.

(** A single page without a pagination block: [AttributeError]. *)
Lemma watched_list_no_pagination_witness :
  exists evs,
    watched_list 5 Scenario.single_bare Scenario.self []
    = (Raise AttributeError, [] ++ evs) /\
    collect_pages evs = map Z.of_nat (seq 1 1) /\
    (List.length (entries Scenario.page_bare)
     <= List.length (detail_requests evs))%nat.
Proof.
  apply (watched_list_no_pagination Scenario.single_bare Scenario.self
           Scenario.parsed (fun _ => Scenario.page_bare) 1).
  - lia.
  - intros p Hp. lia.
  - intros h. answered.
  - intros h item [<- | []]. reflexivity.
  - reflexivity.
  - lia.
Defined.

(** Every page ends with the marker: three turns, no result. *)
Lemma watched_list_endless_witness :
  exists evs,
    watched_list 3 Scenario.endless Scenario.self []
    = (Ok None, [] ++ evs) /\
    collect_pages evs = map Z.of_nat (seq 1 3).
Proof.
  apply (watched_list_endless Scenario.endless Scenario.self
           Scenario.parsed (fun _ => Scenario.page_1)).
  intros J p Hp.
  split; [intros h; answered|].
  split; [exists (Scenario.control next_marker); split; [|reflexivity];
          eexists; split; reflexivity|].
  intros h item [<- | []]. reflexivity.
Defined.

(** The provider answers [null]: [TypeError]. *)
Lemma watching_list_not_a_list_witness :
  watching_list (Scenario.watching_of VNone) Scenario.self []
  = (Raise TypeError, [Sent (GetWatching (_uid Scenario.self))]).
Proof.
  refine (watching_list_not_a_list (Scenario.watching_of VNone)
            Scenario.self [] VNone _ _).
  - answered.
  - discriminate.
Defined.

(** A candidate without [type] between the book and the series. *)
Lemma search_stops_at_failure_witness :
  search (Scenario.found [Scenario.book; VDict [(u "id", VInt 8)];
                          Scenario.series])
         Scenario.self (VStr (u "X")) []
  = (Raise KeyError, [Sent (GetSearch (VStr (u "X")) search_params)]).
Proof.
  refine (search_stops_at_failure
            (Scenario.found [Scenario.book; VDict [(u "id", VInt 8)];
                             Scenario.series])
            Scenario.self (VStr (u "X"))
            (VDict [(u "list",
                     VList [Scenario.book; VDict [(u "id", VInt 8)];
                            Scenario.series])])
            (VList [Scenario.book; VDict [(u "id", VInt 8)];
                    Scenario.series])
            (VDict [(u "id", VInt 8)])
            [Scenario.book] [Scenario.series] KeyError [] _ _ _ _ _).
  - answered.
  - reflexivity.
  - reflexivity.
  - constructor; [|constructor]. exists (VInt 1). split; reflexivity.
  - reflexivity.
Defined.

(** The two items are the entries of the two pages, in order. *)
Lemma watched_list_sound_witness :
  exists docs final,
    Forall2 (parse_of Scenario.two_pages Scenario.self)
            (flat_map entries (docs ++ [final]))
            [Scenario.parsed
               (Scenario.entry "12" "Y" [u "sstars9"; u "starsinfo"]);
             Scenario.parsed
               (Scenario.entry "34" "Z" [u "starsinfo"; u "sstars7"])] /\
    Forall next_marker_present docs /\ next_marker_absent final /\
    Forall (served_page Scenario.two_pages Scenario.self) (docs ++ [final]).
Proof.
  apply (watched_list_sound Scenario.two_pages Scenario.self 5 []
           (snd (watched_list 5 Scenario.two_pages Scenario.self []))).
  reflexivity.
Defined.

(** The answer is decoded and has neither field: the auth error. *)
Lemma init_login_failed_iff_witness :
  (exists self,
      fst (__init__ (Scenario.auth_answer
                       (Scenario.json_resp Scenario.unauthorized))
                    (VStr (u "a@b.c")) (VStr (u "secret")) [])
      = Ok self) \/
  fst (__init__ (Scenario.auth_answer
                   (Scenario.json_resp Scenario.unauthorized))
                (VStr (u "a@b.c")) (VStr (u "secret")) [])
  = Raise LoginFailedException.
Proof.
  apply (proj2 (proj2 (init_login_failed_iff
                         (Scenario.auth_answer
                            (Scenario.json_resp Scenario.unauthorized))
                         (VStr (u "a@b.c")) (VStr (u "secret")) [] []))
               Scenario.unauthorized).
  answered.
Defined.
